(** * imfit_spiral_series: the Gaussian-1D function object and the FITS image I/O

    A shallow embedding of

    - [func1d_gaussian.cpp]  (class [Gaussian1D]: constructor, [Setup], [GetValue]),
    - [func_expdisk3d.h]     (class [ExponentialDisk3D]: declaration and parameter layout),
    - [image_io.cpp]         ([ReadImageAsVector], [SaveVectorAsImage], [PrintError]),

    together with the properties the specification states about them.

    The C++ code computes on [double].  The function objects are therefore
    written once, over an interface [Double] listing the operations the code
    uses, and read at two instances:

    - [binary64 m]: IEEE-754 binary64 (Rocq's primitive floats), with the two
      calls into the C math library ([exp], [pow]) supplied by [m];
    - [exact]: the real numbers, the reading under which the formulas of the
      specification are written. *)

From Stdlib Require Import ZArith List String Bool Lia Floats Reals Lra.
Import ListNotations.

#[local] Set Warnings "-inexact-float".

(* ================================================================== *)
(** * The arithmetic of [double] used by the function objects *)

Class Double (T : Type) : Type := {
  d_sub  : T -> T -> T;          (* a - b *)
  d_mul  : T -> T -> T;          (* a * b *)
  d_div  : T -> T -> T;          (* a / b *)
  d_neg  : T -> T;               (* -a *)
  fabs   : T -> T;               (* <math.h> fabs *)
  m_exp  : T -> T;               (* <math.h> exp *)
  m_pow  : T -> T -> T;          (* <math.h> pow *)
  lit_10 : T;                    (* the literal 10.0 *)
  lit_04 : T;                    (* the literal 0.4 *)
  lit_2  : T;                    (* the literal 2.0 *)
  lit_25 : T                     (* 25.0, the documented default of ZP *)
}.

Declare Scope dbl_scope.
Delimit Scope dbl_scope with dbl.
Infix "-" := d_sub : dbl_scope.
Infix "*" := d_mul : dbl_scope.
Infix "/" := d_div : dbl_scope.
Notation "- x" := (d_neg x) : dbl_scope.

(** The math library is not part of the repository: its two entry points are
    taken as given functions on binary64 values. *)
Record libm : Type := {
  libm_exp : float -> float;
  libm_pow : float -> float -> float
}.

Definition binary64 (m : libm) : Double float := {|
  d_sub := PrimFloat.sub;
  d_mul := PrimFloat.mul;
  d_div := PrimFloat.div;
  d_neg := PrimFloat.opp;
  fabs  := PrimFloat.abs;
  m_exp := libm_exp m;
  m_pow := libm_pow m;
  lit_10 := 10%float;
  lit_04 := 0.4%float;
  lit_2  := 2%float;
  lit_25 := 25%float
|}.

(** A math library to compute with, so that what is assumed of [libm] in the
    theorems below can be seen to hold of some library: [exp] by the Taylor
    polynomial of degree 30 in Horner form, [pow] by repeated multiplication
    for the exponents 0, 1, ..., 64 (NaN for any other exponent). *)
Module SeriesLibm.
Local Open Scope float_scope.

Fixpoint exp_horner (n : nat) (k x : float) : float :=
  match n with
  | O => 1
  | S n' => 1 + x / k * exp_horner n' (k + 1) x
  end.

Definition series_exp (x : float) : float :=
  if x =? neg_infinity then 0
  else if x =? infinity then infinity
  else exp_horner 30 1 x.

Fixpoint pow_search (n : nat) (k acc x y : float) : float :=
  if y =? k then acc
  else match n with
       | O => nan
       | S n' => pow_search n' (k + 1) (acc * x) x y
       end.

Definition product_pow (x y : float) : float := pow_search 64 0 1 x y.

Definition series_libm : libm :=
  {| libm_exp := series_exp; libm_pow := product_pow |}.

End SeriesLibm.

Definition exact : Double R := {|
  d_sub := Rminus;
  d_mul := Rmult;
  d_div := Rdiv;
  d_neg := Ropp;
  fabs  := Rabs;
  m_exp := Rtrigo_def.exp;
  m_pow := Rpower;
  lit_10 := 10%R;
  lit_04 := (4 / 10)%R;
  lit_2  := 2%R;
  lit_25 := 25%R
|}.

(* ================================================================== *)
(** * C array reads *)

(** [params[i]] for a [double params[]] holding the elements of [params]:
    a read outside the array has no defined result. *)
Definition read {T : Type} (params : list T) (i : Z) : option T :=
  if (i <? 0)%Z then None else nth_error params (Z.to_nat i).

(* ================================================================== *)
(** * func1d_gaussian.cpp *)

Module Gaussian1D.

Local Open Scope string_scope.

Definition N_PARAMS : Z := 2.
Definition PARAM_LABELS : list string := ["mu_0"; "sigma"].
Definition FUNCTION_NAME : string := "Gaussian-1D function".
Definition CLASS_SHORT_NAME : string := "Gaussian-1D".

Section Class.
Context {T : Type} {D : Double T}.

(** The data members: those of the base class that the constructor fills in,
    and the four doubles of the Gaussian. *)
Record obj : Type := {
  nParams : Z;
  functionName : string;
  shortFunctionName : string;
  parameterLabels : list string;
  x0 : T;
  mu_0 : T;
  sigma : T;
  I_0 : T
}.

(** One turn of the constructor's loop: [parameterLabels.push_back(PARAM_LABELS[i])]. *)
Definition push_label (labels : list string) (i : nat) : list string :=
  labels ++ [nth i PARAM_LABELS ""].

(** [Gaussian1D::Gaussian1D()].  [raw] is the object as allocated: the
    constructor assigns the base-class members, fills the (empty) vector of
    labels by its loop over [i = 0 .. nParams - 1], and leaves the four
    doubles as they are. *)
Definition Gaussian1D (raw : obj) : obj :=
  let nParams' := N_PARAMS in
  {| nParams := nParams';
     functionName := FUNCTION_NAME;
     shortFunctionName := CLASS_SHORT_NAME;
     parameterLabels := fold_left push_label (seq 0 (Z.to_nat nParams')) [];
     x0 := x0 raw; mu_0 := mu_0 raw; sigma := sigma raw; I_0 := I_0 raw |}.

(** [void Gaussian1D::Setup( double params[], int offsetIndex, double xc )].
    [ZP] is the zero point the method reads; its declaration is in a header
    that is missing here.  [None]: one of the two reads is outside [params].
    The index sums are taken in the integers; for an offset inside an array
    of at most [INT_MAX] elements they are the sums the [int] arithmetic
    gives. *)
Definition Setup (ZP : T) (params : list T) (offsetIndex : Z) (xc : T)
    (this : obj) : option obj :=
  match read params (0 + offsetIndex), read params (1 + offsetIndex) with
  | Some p0, Some p1 =>
      let x0' := xc in
      let mu_0' := p0 in
      let sigma' := p1 in
      let I_0' := m_pow lit_10 (lit_04 * (ZP - mu_0'))%dbl in
      Some {| nParams := nParams this;
              functionName := functionName this;
              shortFunctionName := shortFunctionName this;
              parameterLabels := parameterLabels this;
              x0 := x0'; mu_0 := mu_0'; sigma := sigma'; I_0 := I_0' |}
  | _, _ => None
  end.

(** [double Gaussian1D::GetValue( double x )]: the value returned and the
    object after the call. *)
Definition GetValue (x : T) (this : obj) : T * obj :=
  let scaledDeltaR := (fabs (x - x0 this) / sigma this)%dbl in
  let exponent := (- (scaledDeltaR * scaledDeltaR) / lit_2)%dbl in
  ((I_0 this * m_exp exponent)%dbl, this).

(** ** The zero point and the life of a component

    [ZP] belongs to the process, not to the object.  A process holds the zero
    point and one component; the calls a model makes on the component are
    [Setup] and [GetValue]. *)

Record process : Type := {
  ZP : T;
  component : obj
}.

(** Modelled from the spec: the declaration of [ZP] is in a header that is
    missing; its default value is 25.0. *)
Definition default_ZP : T := lit_25.

(** Modelled from the spec: the zero point is fixed when the model is built,
    to the configured value or else to its default. *)
Definition construct (configured : option T) (raw : obj) : process :=
  {| ZP := match configured with Some zp => zp | None => default_ZP end;
     component := Gaussian1D raw |}.

Inductive call : Type :=
| Call_Setup (params : list T) (offsetIndex : Z) (xc : T)
| Call_GetValue (x : T).

Definition step (c : call) (p : process) : option process :=
  match c with
  | Call_Setup params offsetIndex xc =>
      match Setup (ZP p) params offsetIndex xc (component p) with
      | Some o => Some {| ZP := ZP p; component := o |}
      | None => None
      end
  | Call_GetValue x =>
      Some {| ZP := ZP p; component := snd (GetValue x (component p)) |}
  end.

Fixpoint run (calls : list call) (p : process) : option process :=
  match calls with
  | [] => Some p
  | c :: rest =>
      match step c p with
      | Some p' => run rest p'
      | None => None
      end
  end.

End Class.

Arguments obj T : clear implicits.
Arguments process T : clear implicits.
Arguments call T : clear implicits.

End Gaussian1D.

(** Objects as allocated in zeroed memory, to run the constructor on. *)
Definition zeroed_binary64 : Gaussian1D.obj float :=
  {| Gaussian1D.nParams := 0; Gaussian1D.functionName := "";
     Gaussian1D.shortFunctionName := ""; Gaussian1D.parameterLabels := [];
     Gaussian1D.x0 := 0%float; Gaussian1D.mu_0 := 0%float;
     Gaussian1D.sigma := 0%float; Gaussian1D.I_0 := 0%float |}.

Definition zeroed_exact : Gaussian1D.obj R :=
  {| Gaussian1D.nParams := 0; Gaussian1D.functionName := "";
     Gaussian1D.shortFunctionName := ""; Gaussian1D.parameterLabels := [];
     Gaussian1D.x0 := 0%R; Gaussian1D.mu_0 := 0%R;
     Gaussian1D.sigma := 0%R; Gaussian1D.I_0 := 0%R |}.

(* ================================================================== *)
(** * func_expdisk3d.h

    The header declares the class and documents, in its PARAMETERS comment,
    what [Setup] loads.  The bodies of [Setup] and [GetValue] are in
    func_expdisk3d.cpp, which is missing here. *)

Module ExponentialDisk3D.

(** What the class needs beyond [Double]: addition, trigonometry, a maximum,
    degrees to radians, and the one-dimensional integrator (the header
    includes gsl/gsl_integration.h and keeps a [gsl_function F]). *)
Class Numerics (T : Type) : Type := {
  d_add   : T -> T -> T;
  m_cos   : T -> T;
  m_sin   : T -> T;
  m_fmax  : T -> T -> T;
  radians : T -> T;
  lit_8   : T;
  Integrate : (T -> T) -> T -> T -> T   (* integrand, lower limit, upper limit *)
}.

Section Class.
Context {T : Type} {D : Double T} {N : Numerics T}.
Local Open Scope dbl_scope.
Local Infix "+" := d_add : dbl_scope.

(** The private data members, in the order of the declaration. *)
Record obj : Type := {
  x0 : T; y0 : T; PA : T; inclination : T; I_0 : T; h : T; h_z : T;
  PA_rad : T; cosPA : T; sinPA : T; inc_rad : T; cosInc : T; sinInc : T
}.

(** Modelled from the spec: func_expdisk3d.cpp is missing.  The loads are
    those of the header's PARAMETERS comment; the cached angles follow the
    specification's pattern for [Setup] (position angle and inclination to
    radians, their cosine and sine kept). *)
Definition Setup (params : list T) (offsetIndex : Z) (xc yc : T)
    (this : obj) : option obj :=
  match read params (0 + offsetIndex), read params (1 + offsetIndex),
        read params (2 + offsetIndex), read params (3 + offsetIndex),
        read params (4 + offsetIndex) with
  | Some p0, Some p1, Some p2, Some p3, Some p4 =>
      let PA_rad' := radians p0 in
      let inc_rad' := radians p1 in
      Some {| x0 := xc; y0 := yc;
              PA := p0; inclination := p1; I_0 := p2; h := p3; h_z := p4;
              PA_rad := PA_rad'; cosPA := m_cos PA_rad'; sinPA := m_sin PA_rad';
              inc_rad := inc_rad'; cosInc := m_cos inc_rad'; sinInc := m_sin inc_rad' |}
  | _, _, _, _, _ => None
  end.

(** Modelled from the spec: the sky offset rotated by [-PA] gives the
    coordinates along the major and the minor axis. *)
Definition xp (this : obj) (x y : T) : T :=
  (x - x0 this) * cosPA this + (y - y0 this) * sinPA this.
Definition yp (this : obj) (x y : T) : T :=
  - ((x - x0 this) * sinPA this) + (y - y0 this) * cosPA this.

(** The specification says of [R(s)] and [Z(s)] only that they are derived
    from the inclination rotation.  They are taken as given functions of the
    cosine and sine of the inclination, the two coordinates of the pixel in
    the frame of the axes, and the path parameter [s]. *)
Variables R_s Z_s : T -> T -> T -> T -> T -> T.

(** Modelled from the spec: [I_0 * exp(-R(s)/h) * exp(-|Z(s)|/h_z)]. *)
Definition LuminosityDensity (this : obj) (x y s : T) : T :=
  let R := R_s (cosInc this) (sinInc this) (xp this x y) (yp this x y) s in
  let Z := Z_s (cosInc this) (sinInc this) (xp this x y) (yp this x y) s in
  I_0 this * m_exp (- (R / h this)) * m_exp (- (fabs Z / h_z this)).

(** Modelled from the spec: the integration runs over [[-L, +L]] with
    [L = max(8 h_z / |cos i|, 8 h)]. *)
Definition integLimit (this : obj) : T :=
  m_fmax (lit_8 * h_z this / fabs (cosInc this)) (lit_8 * h this).

(** Modelled from the spec: [GetValue] is the line-of-sight integral of the
    luminosity density, computed by the one-dimensional integrator. *)
Definition GetValue (x y : T) (this : obj) : T * obj :=
  let L := integLimit this in
  (Integrate (LuminosityDensity this x y) (- L) L, this).

End Class.

Arguments obj T : clear implicits.

(** The reals as an instance, with the midpoint rule on one panel standing
    in for the adaptive integrator; the rotation about the major axis as one
    reading of [R(s)] and [Z(s)]; and an object in zeroed memory. *)
Definition exact_numerics : Numerics R := {|
  d_add := Rplus;
  m_cos := cos;
  m_sin := sin;
  m_fmax := Rmax;
  radians := fun a => (a * PI / 180)%R;
  lit_8 := 8%R;
  Integrate := fun f a b => ((b - a) * f ((a + b) / 2))%R
|}.

Definition rotated_R (cosInc sinInc xp yp s : R) : R :=
  sqrt (xp * xp + (yp * cosInc + s * sinInc) * (yp * cosInc + s * sinInc)).

Definition rotated_Z (cosInc sinInc xp yp s : R) : R :=
  (- (yp * sinInc) + s * cosInc)%R.

Definition zeroed_disk : obj R :=
  {| x0 := 0; y0 := 0; PA := 0; inclination := 0; I_0 := 0; h := 0; h_z := 0;
     PA_rad := 0; cosPA := 0; sinPA := 0; inc_rad := 0; cosInc := 0;
     sinInc := 0 |}%R.

End ExponentialDisk3D.

(* ================================================================== *)
(** * image_io.cpp *)

Module ImageIO.

Local Open Scope Z_scope.

(** ** The C integers *)

(** Conversion to a 32-bit [int], and [int] arithmetic, with the wrap-around
    written out. *)
Definition int32 (z : Z) : Z := (z + 2 ^ 31) mod 2 ^ 32 - 2 ^ 31.

(** ** What a call can come to *)

Inductive outcome (A : Type) : Type :=
| Returns (a : A)              (* the function returns to its caller *)
| Exits (status : Z)           (* the process ends in [exit(status)] *)
| Undefined.                   (* a read past the end of the caller's array *)
Arguments Returns {A} a.
Arguments Exits {A} status.
Arguments Undefined {A}.

Definition bind {A B : Type} (c : outcome A) (k : A -> outcome B) : outcome B :=
  match c with
  | Returns a => k a
  | Exits status => Exits status
  | Undefined => Undefined
  end.

Notation "x <- c ;; k" := (bind c (fun x => k))
  (at level 61, c at next level, right associativity).

(** ** FITS images and cfitsio

    cfitsio is not part of the repository.  Its routines are modelled by what
    they do to an image and to the status word.  Every routine returns the
    status it leaves in [*status], and a routine entered with a non-zero
    status does nothing and hands that status back. *)

Definition FLOAT_IMG : Z := -32.
Definition FILE_NOT_OPENED : Z := 104.
Definition NULL_INPUT_PTR : Z := 115.
Definition BAD_PIX_NUM : Z := 321.

(** The primary image of a FITS file: the header cards the code touches and
    the pixel values, first axis running fastest. *)
Record fits_image : Type := {
  BITPIX : Z;
  NAXIS1 : Z;
  NAXIS2 : Z;
  COMMENT : list string;
  DATE : bool;
  data : list spec_float
}.

Definition disk : Type := string -> option fits_image.

Definition store (d : disk) (name : string) (f : fits_image) : disk :=
  fun n => if String.eqb n name then Some f else d n.

(** The pixel in column [x] and row [y] of an image, both counted from 1. *)
Definition fits_pixel (f : fits_image) (x y : Z) : option spec_float :=
  if (1 <=? x) && (x <=? NAXIS1 f) && (1 <=? y) && (y <=? NAXIS2 f)
  then read (data f) ((y - 1) * NAXIS1 f + (x - 1))
  else None.

(** Rounding of a value to the format with [prec] bits of mantissa and
    exponents below [emax], to nearest, ties to even. *)
Definition SFround (prec emax : Z) (v : spec_float) : spec_float :=
  match v with
  | S754_finite s m e => binary_round prec emax s m e
  | _ => v
  end.

(** A [double] stored as a pixel of a single-precision image, and a stored
    pixel read as a [double]. *)
Definition to_float32 (x : float) : spec_float := SFround 24 128 (Prim2SF x).
Definition to_double (v : spec_float) : float := SF2Prim (SFround 53 1024 v).

(** The routines the code calls.  [faults r] is the status routine [r]
    reports when it is entered with status 0 and the file is there;
    0 means that it succeeds. *)
Inductive routine : Type :=
| open_file | read_keys_lng | read_pix | close_file
| create_file | create_img | write_comment (i : nat) | write_date | write_pix.

Definition faults : Type := routine -> Z.

Definition fits_open_file (d : disk) (filename : string) (flt : faults)
    (status : Z) : option fits_image * Z :=
  if status =? 0 then
    match d filename with
    | None => (None, FILE_NOT_OPENED)
    | Some f => if flt open_file =? 0 then (Some f, 0) else (None, flt open_file)
    end
  else (None, status).

Definition fits_read_keys_lng (fptr : option fits_image) (flt : faults)
    (status : Z) : (Z * Z) * Z :=
  if status =? 0 then
    match fptr with
    | None => ((0, 0), NULL_INPUT_PTR)
    | Some f => if flt read_keys_lng =? 0 then ((NAXIS1 f, NAXIS2 f), 0)
                else ((0, 0), flt read_keys_lng)
    end
  else ((0, 0), status).

(** [fits_read_pix(fptr, TDOUBLE, {1,1}, nelements, ...)]: the first
    [nelements] pixels, as doubles. *)
Definition fits_read_pix (fptr : option fits_image) (nelements : Z)
    (flt : faults) (status : Z) : list float * Z :=
  if status =? 0 then
    match fptr with
    | None => ([], NULL_INPUT_PTR)
    | Some f =>
        if (nelements <? 0) || (Z.of_nat (List.length (data f)) <? nelements)
        then ([], BAD_PIX_NUM)
        else if flt read_pix =? 0
        then (map to_double (firstn (Z.to_nat nelements) (data f)), 0)
        else ([], flt read_pix)
    end
  else ([], status).

Definition fits_close_file (flt : faults) (status : Z) : Z :=
  if status =? 0 then flt close_file else status.

(** [fits_create_file] with the name prefixed by "!": an existing file of
    that name is replaced. *)
Definition fits_create_file (flt : faults) (status : Z) : option fits_image * Z :=
  if status =? 0 then
    if flt create_file =? 0
    then (Some {| BITPIX := 8; NAXIS1 := 0; NAXIS2 := 0;
                  COMMENT := []; DATE := false; data := [] |}, 0)
    else (None, flt create_file)
  else (None, status).

Definition fits_create_img (fptr : option fits_image) (bitpix : Z)
    (naxes : Z * Z) (flt : faults) (status : Z) : option fits_image * Z :=
  if status =? 0 then
    match fptr with
    | None => (None, NULL_INPUT_PTR)
    | Some f =>
        if flt create_img =? 0
        then (Some {| BITPIX := bitpix; NAXIS1 := fst naxes; NAXIS2 := snd naxes;
                      COMMENT := COMMENT f; DATE := DATE f; data := data f |}, 0)
        else (fptr, flt create_img)
    end
  else (fptr, status).

Definition fits_write_comment (fptr : option fits_image) (i : nat)
    (comment : string) (flt : faults) (status : Z) : option fits_image * Z :=
  if status =? 0 then
    match fptr with
    | None => (None, NULL_INPUT_PTR)
    | Some f =>
        if flt (write_comment i) =? 0
        then (Some {| BITPIX := BITPIX f; NAXIS1 := NAXIS1 f; NAXIS2 := NAXIS2 f;
                      COMMENT := COMMENT f ++ [comment]; DATE := DATE f;
                      data := data f |}, 0)
        else (fptr, flt (write_comment i))
    end
  else (fptr, status).

Definition fits_write_date (fptr : option fits_image) (flt : faults)
    (status : Z) : option fits_image * Z :=
  if status =? 0 then
    match fptr with
    | None => (None, NULL_INPUT_PTR)
    | Some f =>
        if flt write_date =? 0
        then (Some {| BITPIX := BITPIX f; NAXIS1 := NAXIS1 f; NAXIS2 := NAXIS2 f;
                      COMMENT := COMMENT f; DATE := true; data := data f |}, 0)
        else (fptr, flt write_date)
    end
  else (fptr, status).

(** [fits_write_pix(fptr, TDOUBLE, {1,1}, nelements, array, &status)] on an
    image created as [FLOAT_IMG]: each double is stored in single precision.
    [None] for the whole result: the routine runs and [array] holds fewer
    than [nelements] values. *)
Definition fits_write_pix (fptr : option fits_image) (nelements : Z)
    (array : list float) (flt : faults) (status : Z)
    : option (option fits_image * Z) :=
  if status =? 0 then
    match fptr with
    | None => Some (None, NULL_INPUT_PTR)
    | Some f =>
        if flt write_pix =? 0 then
          if Z.of_nat (List.length array) <? nelements then None
          else Some (Some {| BITPIX := BITPIX f; NAXIS1 := NAXIS1 f;
                             NAXIS2 := NAXIS2 f; COMMENT := COMMENT f;
                             DATE := DATE f;
                             data := map to_float32
                                       (firstn (Z.to_nat nelements) array) |}, 0)
        else Some (fptr, flt write_pix)
    end
  else Some (fptr, status).

(** ** The functions of image_io.cpp *)

(** [static void PrintError( int status )] *)
Definition PrintError (status : Z) : outcome unit :=
  if status =? 0 then Returns tt else Exits status.

(** The pattern [if ( problems ) { printf(...); PrintError(status); }]. *)
Definition if_problems (problems status : Z) : outcome unit :=
  if problems =? 0 then Returns tt else PrintError status.

(** [double * ReadImageAsVector( std::string filename, int *nColumns,
    int *nRows, bool verbose )]: the array returned with what is stored in
    [*nColumns] and [*nRows].  [verbose] only adds messages on the standard
    output. *)
Definition ReadImageAsVector (filename : string) (verbose : bool)
    (d : disk) (flt : faults) : outcome (list float * Z * Z) :=
  let status := 0 in
  let '(imfile_ptr, status) := fits_open_file d filename flt status in
  let problems := status in
  _ <- if_problems problems status ;;
  let '(naxes, status) := fits_read_keys_lng imfile_ptr flt status in
  let problems := status in
  _ <- if_problems problems status ;;
  let n_columns := int32 (fst naxes) in      (* NAXIS1 = # columns *)
  let n_rows := int32 (snd naxes) in         (* NAXIS2 = # rows *)
  let nPixelsTot := int32 (n_columns * n_rows) in
  let '(imageVector, status) := fits_read_pix imfile_ptr nPixelsTot flt status in
  let problems := status in
  _ <- if_problems problems status ;;
  let status := fits_close_file flt status in
  let problems := status in
  _ <- if_problems problems status ;;
  Returns (imageVector, n_columns, n_rows).

(** The loop [for (i = 0; i < comments.size(); i++) fits_write_comment(...)],
    from index [i] on. *)
Fixpoint write_comments (fptr : option fits_image) (i : nat)
    (comments : list string) (flt : faults) (status : Z)
    : option fits_image * Z :=
  match comments with
  | [] => (fptr, status)
  | c :: rest =>
      let '(fptr, status) := fits_write_comment fptr i c flt status in
      write_comments fptr (S i) rest flt status
  end.

(** [void SaveVectorAsImage( double *pixelVector, std::string filename,
    int nColumns, int nRows, std::vector<std::string> comments )]: the disk
    after the call. *)
Definition SaveVectorAsImage (pixelVector : list float) (filename : string)
    (nColumns nRows : Z) (comments : list string)
    (d : disk) (flt : faults) : outcome disk :=
  let status := 0 in
  let naxes := (nColumns, nRows) in
  let nPixels := int32 (nColumns * nRows) in
  let '(imfile_ptr, status) := fits_create_file flt status in
  let '(imfile_ptr, status) := fits_create_img imfile_ptr FLOAT_IMG naxes flt status in
  let '(imfile_ptr, status) := write_comments imfile_ptr 0 comments flt status in
  let '(imfile_ptr, status) := fits_write_date imfile_ptr flt status in
  match fits_write_pix imfile_ptr nPixels pixelVector flt status with
  | None => Undefined
  | Some (imfile_ptr, status) =>
      let problems := status in
      _ <- if_problems problems status ;;
      let status := fits_close_file flt status in
      let problems := status in
      _ <- if_problems problems status ;;
      match imfile_ptr with
      | Some f => Returns (store d filename f)
      | None => Returns d
      end
  end.

(** ** Images in memory *)

(** The files the functions are meant for: both axes positive, the pixel
    count within an [int], and as many pixels as the axes say. *)
Definition well_formed (f : fits_image) : Prop :=
  0 < NAXIS1 f /\ 0 < NAXIS2 f /\ NAXIS1 f * NAXIS2 f < 2 ^ 31 /\
  Z.of_nat (List.length (data f)) = NAXIS1 f * NAXIS2 f.

(** What a saved pixel is when it is read back. *)
Definition through_float32 (x : float) : float := to_double (to_float32 x).

(** [tinyImage] of unittest_image_io.t.h. *)
Definition tinyImage : list float :=
  [1; 2; 3; 4; 5; 6; 7; 8; 9]%float.

(** A run in which every routine succeeds, an empty disk, and a small image
    of three columns and two rows to read. *)
Definition no_faults : faults := fun _ => 0.

Definition empty_disk : disk := fun _ => None.

Definition image_3x2 : fits_image :=
  {| BITPIX := FLOAT_IMG; NAXIS1 := 3; NAXIS2 := 2; COMMENT := []; DATE := true;
     data := map to_float32 [11; 12; 13; 21; 22; 23]%float |}.

End ImageIO.

(* ================================================================== *)
(** * Sign symmetry of IEEE-754 division and multiplication

    Round-to-nearest-even does not look at the sign, so negating the divisor
    negates the quotient, and the product of two negated values is the
    product of the values.  Stated on the specification floats for any
    format, then carried over to binary64. *)

Section SpecFloatSigns.
Variables prec emax : Z.

Lemma binary_round_aux_negb s m e l :
  binary_round_aux prec emax (negb s) m e l
  = SFopp (binary_round_aux prec emax s m e l).
Proof.
  unfold binary_round_aux.
  destruct (shr_fexp prec emax m e l) as [mrs' e'].
  destruct (shr_fexp prec emax _ e' loc_Exact) as [mrs'' e''].
  destruct (shr_m mrs''); simpl; trivial.
  destruct (Z.leb e'' (emax - prec)); reflexivity.
Qed.

Lemma SFdiv_opp_r x y :
  SFdiv prec emax x (SFopp y) = SFopp (SFdiv prec emax x y).
Proof.
  destruct x as [sx|sx| |sx mx ex], y as [sy|sy| |sy my ey]; simpl; trivial;
    rewrite <- negb_xorb_r; trivial.
  destruct (SFdiv_core_binary prec emax (Z.pos mx) ex (Z.pos my) ey) as [[mz ez] lz].
  apply binary_round_aux_negb.
Qed.

Lemma SFmul_opp_opp x y :
  SFmul prec emax (SFopp x) (SFopp y) = SFmul prec emax x y.
Proof.
  destruct x as [sx|sx| |sx mx ex], y as [sy|sy| |sy my ey]; simpl; trivial;
    now destruct sx, sy.
Qed.

End SpecFloatSigns.

Module F64.
Local Open Scope float_scope.

Lemma div_opp_r x y : x / (- y) = - (x / y).
Proof.
  apply Prim2SF_inj. rewrite opp_spec, !div_spec, opp_spec. apply SFdiv_opp_r.
Qed.

Lemma mul_opp_opp x y : (- x) * (- y) = x * y.
Proof.
  apply Prim2SF_inj. rewrite !mul_spec, !opp_spec. apply SFmul_opp_opp.
Qed.

(** [0 < r] rules out NaN, the zeros and every negative value. *)
Lemma pos_cases r :
  (0 <? r) = true ->
  Prim2SF r = S754_infinity false \/ exists m e, Prim2SF r = S754_finite false m e.
Proof.
  rewrite ltb_spec. change (Prim2SF 0) with (S754_zero false).
  destruct (Prim2SF r) as [s|s| |s m e]; cbn; try discriminate.
  - destruct s; [discriminate | now left].
  - destruct s; [discriminate | right; now exists m, e].
Qed.

(** [z == 0] holds of the two zeros only. *)
Lemma zero_cases z : (z =? 0) = true -> exists s, Prim2SF z = S754_zero s.
Proof.
  rewrite eqb_spec. change (Prim2SF 0) with (S754_zero false).
  destruct (Prim2SF z) as [s|s| |s m e]; cbn; try discriminate.
  - intros _. now exists s.
  - destruct s; discriminate.
  - destruct s; discriminate.
Qed.

(** [fabs] does not see the sign. *)
Lemma abs_opp a : abs (- a) = abs a.
Proof.
  apply Prim2SF_inj. rewrite !abs_spec, opp_spec. now destruct (Prim2SF a).
Qed.

Lemma abs_zero a : (a =? 0) = true -> (abs a =? 0) = true.
Proof.
  intros H. destruct (zero_cases _ H) as [s Hs].
  rewrite eqb_spec, abs_spec, Hs. reflexivity.
Qed.

(** A positive value divided by a zero is an infinity. *)
Lemma div_pos_zero r z :
  (0 <? r) = true -> (z =? 0) = true ->
  exists s, Prim2SF (r / z) = S754_infinity s.
Proof.
  intros Hr Hz. destruct (zero_cases _ Hz) as [s Hs]. exists s.
  rewrite div_spec, Hs.
  destruct (pos_cases _ Hr) as [-> | (m & e & ->)]; reflexivity.
Qed.

(** A zero divided by a zero is NaN. *)
Lemma div_zero_zero a z :
  (a =? 0) = true -> (z =? 0) = true -> a / z = nan.
Proof.
  intros Ha Hz. destruct (zero_cases _ Ha) as [s Hs], (zero_cases _ Hz) as [s' Hs'].
  apply Prim2SF_inj. rewrite div_spec, Hs, Hs'. reflexivity.
Qed.

(** The square of an infinity, negated and halved, is minus infinity. *)
Lemma neg_sq_inf_half q s :
  Prim2SF q = S754_infinity s -> - (q * q) / 2 = neg_infinity.
Proof.
  intros H. apply Prim2SF_inj.
  rewrite div_spec, opp_spec, mul_spec, H. now destruct s.
Qed.

End F64.

(* ================================================================== *)
(** * Gaussian1D: what [Setup] stores and what [GetValue] computes *)

Section Gaussian1D_generic.
Import Gaussian1D.
Context {T : Type} {D : Double T}.

(** [Setup] succeeds exactly when both reads are inside the array, and then
    stores the centre, the two parameters and the intensity. *)
Lemma Setup_reads (ZP : T) params offsetIndex xc (this : obj T) p0 p1 :
  read params offsetIndex = Some p0 ->
  read params (1 + offsetIndex) = Some p1 ->
  Setup ZP params offsetIndex xc this =
    Some {| nParams := nParams this;
            functionName := functionName this;
            shortFunctionName := shortFunctionName this;
            parameterLabels := parameterLabels this;
            x0 := xc; mu_0 := p0; sigma := p1;
            I_0 := m_pow lit_10 (lit_04 * (ZP - p0))%dbl |}.
Proof.
  intros H0 H1. unfold Setup. rewrite Z.add_0_l, H0, H1. reflexivity.
Qed.

Lemma Setup_inv (ZP : T) params offsetIndex xc (this this' : obj T) :
  Setup ZP params offsetIndex xc this = Some this' ->
  read params offsetIndex = Some (mu_0 this') /\
  read params (1 + offsetIndex) = Some (sigma this') /\
  x0 this' = xc /\
  I_0 this' = m_pow lit_10 (lit_04 * (ZP - mu_0 this'))%dbl /\
  nParams this' = nParams this /\
  parameterLabels this' = parameterLabels this.
Proof.
  unfold Setup. rewrite Z.add_0_l.
  destruct (read params offsetIndex) as [p0|]; [|discriminate].
  destruct (read params (1 + offsetIndex)) as [p1|]; [|discriminate].
  intros [= <-]. cbn. repeat split.
Qed.

(** Reading inside the array. *)
Lemma read_nth (A : Type) (l : list A) (i : Z) (dflt : A) :
  (0 <= i < Z.of_nat (List.length l))%Z ->
  read l i = Some (nth (Z.to_nat i) l dflt).
Proof.
  intros [Hlo Hhi]. unfold read.
  destruct (Z.ltb_spec i 0) as [Hneg|_]; [lia|].
  apply nth_error_nth'. lia.
Qed.

Lemma GetValue_state (x : T) (this : obj T) : snd (GetValue x this) = this.
Proof. reflexivity. Qed.

Lemma step_GetValue (x : T) (p : process T) : step (Call_GetValue x) p = Some p.
Proof. destruct p; reflexivity. Qed.

Lemma step_ZP (c : call T) (p q : process T) : step c p = Some q -> ZP q = ZP p.
Proof.
  destruct c as [params offsetIndex xc|x]; cbn.
  - destruct (Setup (ZP p) params offsetIndex xc (component p)); [|discriminate].
    now intros [= <-].
  - now intros [= <-].
Qed.

Lemma run_ZP (calls : list (call T)) :
  forall p q : process T, run calls p = Some q -> ZP q = ZP p.
Proof.
  induction calls as [|c rest IH]; intros p q; cbn.
  - now intros [= <-].
  - destruct (step c p) as [p'|] eqn:Hstep; [|discriminate].
    intros Hrun. rewrite (IH _ _ Hrun). eapply step_ZP; eassumption.
Qed.

End Gaussian1D_generic.

(* ================================================================== *)
(** * Gaussian1D over the reals *)

Section Gaussian1D_exact.
Import Gaussian1D.
Local Open Scope R_scope.




Lemma Rabs_mirror (c d : R) : Rabs (c + d - c) = Rabs (c - d - c).
Proof.
  replace (c + d - c) with d by ring.
  replace (c - d - c) with (- d) by ring.
  symmetry. apply Rabs_Ropp.
Qed.

End Gaussian1D_exact.

(* ================================================================== *)
(** * Gaussian1D in binary64 *)

Section Gaussian1D_binary64.
Import Gaussian1D.
Variable m : libm.
Local Open Scope float_scope.

(** The value [GetValue] returns, spelled out in binary64 operations. *)
Lemma GetValue_binary64 (x : float) (this : obj float) :
  fst (@GetValue float (binary64 m) x this)
  = I_0 this * libm_exp m (- (abs (x - x0 this) / sigma this
                              * (abs (x - x0 this) / sigma this)) / 2).
Proof. reflexivity. Qed.

(** Changing the sign of [sigma] changes nothing. *)
Lemma GetValue_sigma_sign (x c i0 s : float) (o o' : obj float) :
  x0 o = c -> x0 o' = c -> I_0 o = i0 -> I_0 o' = i0 ->
  sigma o = s -> sigma o' = - s ->
  fst (@GetValue float (binary64 m) x o) = fst (@GetValue float (binary64 m) x o').
Proof.
  intros Hc Hc' Hi Hi' Hs Hs'. rewrite !GetValue_binary64.
  rewrite Hc, Hc', Hi, Hi', Hs, Hs'.
  rewrite F64.div_opp_r, F64.mul_opp_opp. reflexivity.
Qed.

End Gaussian1D_binary64.

(* ================================================================== *)
(** * The functions at work *)

Section Examples.
Import Gaussian1D ImageIO.

Example constructor_labels :
  parameterLabels (@Gaussian1D float zeroed_binary64) = ["mu_0"; "sigma"]%string
  /\ nParams (@Gaussian1D float zeroed_binary64) = 2%Z
  /\ shortFunctionName (@Gaussian1D float zeroed_binary64) = "Gaussian-1D"%string.
Proof. repeat split. Qed.

(** The Gaussian of scenario S1 with the series library: 60.6531 at 19. *)
Example S1_at_19 :
  option_map
    (fun g => fst (@GetValue float (binary64 SeriesLibm.series_libm) 19%float g))
    (@Setup float (binary64 SeriesLibm.series_libm) 25%float
       [20%float; 3%float] 0 16%float zeroed_binary64)
  = Some 60.653065971263345%float.
Proof. vm_compute. reflexivity. Qed.

(** A parameter vector too short for the offset. *)
Example Setup_outside_params :
  @Setup float (binary64 SeriesLibm.series_libm) 25%float
    [20%float; 3%float] 1 16%float zeroed_binary64
  = None.
Proof. reflexivity. Qed.

(** [sigma = 0] with the series library: NaN at the centre, 0 next to it. *)
Example sigma_zero_values :
  option_map
    (fun g =>
       (is_nan (fst (@GetValue float (binary64 SeriesLibm.series_libm) 16%float g)),
        fst (@GetValue float (binary64 SeriesLibm.series_libm) 17%float g)))
    (@Setup float (binary64 SeriesLibm.series_libm) 25%float
       [20%float; 0%float] 0 16%float zeroed_binary64)
  = Some (true, 0%float).
Proof. vm_compute. reflexivity. Qed.

(** The two failures the unit tests provoke: a file that is not there, and a
    file that cannot be created (cfitsio's [FILE_NOT_CREATED], 105). *)
Example read_missing_file :
  ReadImageAsVector "no_image_with_this_name.fits" false empty_disk no_faults
  = Exits FILE_NOT_OPENED.
Proof. reflexivity. Qed.

Example save_impossible_file :
  SaveVectorAsImage tinyImage "/arglebargle.fits" 3%Z 3%Z [] empty_disk
    (fun r => match r with create_file => 105%Z | _ => 0%Z end)
  = Exits 105%Z.
Proof. reflexivity. Qed.

(** A pixel that single precision does not hold. *)
Example tenth_through_float32 :
  through_float32 0.1%float = 0.10000000149011612%float.
Proof. vm_compute. reflexivity. Qed.

End Examples.

(* ================================================================== *)
(** * The Gaussian profile *)

Section Gaussian1D_claims.
Import Gaussian1D.



(** C2.  The Gaussian is the component of these files whose flux parameter
    is in magnitudes.  Its [Setup] turns the magnitude into the intensity
    [I_0 = 10^(0.4 (ZP - mu_0))], where [ZP] is the one zero point of the
    process: 25.0 unless configured when the model is built, and the same
    after any sequence of [Setup] and [GetValue] calls. *)
Theorem zero_point_conversion
    (T : Type) (D : Double T) (m : libm)
    (configured : option T) (raw : obj T) (calls : list (call T))
    (p q : process T) (params : list T) (offsetIndex : Z) (xc : T) :
  run calls (construct configured raw) = Some p ->
  step (Call_Setup params offsetIndex xc) p = Some q ->
  ZP p = match configured with Some zp => zp | None => default_ZP end /\
  ZP q = ZP p /\
  read params offsetIndex = Some (mu_0 (component q)) /\
  I_0 (component q) = m_pow lit_10 (lit_04 * (ZP p - mu_0 (component q)))%dbl /\
  @default_ZP float (binary64 m) = 25%float /\
  @default_ZP R exact = 25%R.
Proof.
  intros Hrun Hstep.
  split; [exact (run_ZP _ _ _ Hrun)|].
  split; [exact (step_ZP _ _ _ Hstep)|].
  cbn in Hstep.
  destruct (Setup (ZP p) params offsetIndex xc (component p)) as [o|] eqn:HS;
    [|discriminate].
  injection Hstep as <-. cbn [component].
  destruct (Setup_inv _ _ _ _ _ _ HS) as (Hmu & _ & _ & HI & _).
  repeat split; assumption.
Qed.

(** C2 at work: a model built without a configured zero point, set up once,
    evaluated once, then set up again with other parameters. *)
Lemma zero_point_conversion_witness :
  exists p q,
    @run float (binary64 SeriesLibm.series_libm)
      [Call_Setup [20%float; 3%float] 0 16%float; Call_GetValue 19%float]
      (@construct float (binary64 SeriesLibm.series_libm) None zeroed_binary64)
    = Some p /\
    @step float (binary64 SeriesLibm.series_libm)
      (Call_Setup [7%float; 21%float; 2%float] 1 8%float) p = Some q /\
    ZP p = 25%float /\
    ZP q = ZP p /\
    read [7%float; 21%float; 2%float] 1 = Some (mu_0 (component q)) /\
    I_0 (component q)
    = SeriesLibm.product_pow 10 (0.4 * (ZP p - mu_0 (component q)))%float /\
    @default_ZP float (binary64 SeriesLibm.series_libm) = 25%float /\
    @default_ZP R exact = 25%R.
Proof.
  eexists. eexists.
  split; [reflexivity|]. split; [reflexivity|].
  apply (@zero_point_conversion float (binary64 SeriesLibm.series_libm)
           SeriesLibm.series_libm None zeroed_binary64
           [Call_Setup [20%float; 3%float] 0 16%float; Call_GetValue 19%float]
           _ _ [7%float; 21%float; 2%float] 1 8%float);
    reflexivity.
Defined.

(** C4.  The Gaussian declares two parameters, labelled "mu_0" and "sigma"
    in that order.  [Setup] reads [params[offset]] into [mu_0] and
    [params[offset+1]] into [sigma], takes [x0] from the centre, keeps the
    arity and the labels, and reads nothing else: a vector that agrees with
    [params] at these two places gives the same object. *)
Theorem gaussian1d_parameters
    (T : Type) (D : Double T) (ZP xc : T) (raw this : obj T)
    (params params' : list T) (offsetIndex : Z) (dflt : T) :
  (0 <= offsetIndex)%Z ->
  (offsetIndex + 2 <= Z.of_nat (List.length params))%Z ->
  read params' offsetIndex = read params offsetIndex ->
  read params' (1 + offsetIndex) = read params (1 + offsetIndex) ->
  nParams (Gaussian1D raw) = 2%Z /\
  parameterLabels (Gaussian1D raw) = ["mu_0"; "sigma"]%string /\
  (exists g, Setup ZP params offsetIndex xc this = Some g /\
     mu_0 g = nth (Z.to_nat offsetIndex) params dflt /\
     sigma g = nth (Z.to_nat offsetIndex + 1) params dflt /\
     x0 g = xc /\
     nParams g = nParams this /\
     parameterLabels g = parameterLabels this) /\
  Setup ZP params' offsetIndex xc this = Setup ZP params offsetIndex xc this.
Proof.
  intros Hlo Hhi E0 E1.
  split; [reflexivity|]. split; [reflexivity|]. split.
  - assert (H0 : read params offsetIndex
                 = Some (nth (Z.to_nat offsetIndex) params dflt))
      by (apply read_nth; lia).
    assert (H1 : read params (1 + offsetIndex)
                 = Some (nth (Z.to_nat offsetIndex + 1) params dflt)).
    { rewrite (read_nth _ params (1 + offsetIndex) dflt) by lia.
      do 2 f_equal. lia. }
    eexists. split; [apply Setup_reads; eassumption|]. cbn. repeat split.
  - unfold Setup. rewrite Z.add_0_l, E0, E1. reflexivity.
Qed.

(** C4 on a vector of five values read at offset 2, against a vector that
    differs from it everywhere else. *)
Lemma gaussian1d_parameters_witness :
  nParams (@Gaussian1D float zeroed_binary64) = 2%Z /\
  parameterLabels (@Gaussian1D float zeroed_binary64) = ["mu_0"; "sigma"]%string /\
  (exists g,
     @Setup float (binary64 SeriesLibm.series_libm) 25%float
       [1%float; 2%float; 20%float; 3%float; 5%float] 2 16%float
       (Gaussian1D zeroed_binary64) = Some g /\
     mu_0 g = nth (Z.to_nat 2) [1%float; 2%float; 20%float; 3%float; 5%float] 0%float /\
     sigma g = nth (Z.to_nat 2 + 1) [1%float; 2%float; 20%float; 3%float; 5%float] 0%float /\
     x0 g = 16%float /\
     nParams g = nParams (Gaussian1D zeroed_binary64) /\
     parameterLabels g = parameterLabels (Gaussian1D zeroed_binary64)) /\
  @Setup float (binary64 SeriesLibm.series_libm) 25%float
    [9%float; 8%float; 20%float; 3%float] 2 16%float (Gaussian1D zeroed_binary64)
  = @Setup float (binary64 SeriesLibm.series_libm) 25%float
      [1%float; 2%float; 20%float; 3%float; 5%float] 2 16%float
      (Gaussian1D zeroed_binary64).
Proof.
  apply (@gaussian1d_parameters float (binary64 SeriesLibm.series_libm)
           25%float 16%float zeroed_binary64 (Gaussian1D zeroed_binary64)
           [1%float; 2%float; 20%float; 3%float; 5%float]
           [9%float; 8%float; 20%float; 3%float] 2 0%float).
  - lia.
  - simpl; lia.
  - reflexivity.
  - reflexivity.
Defined.

(** C7.  [GetValue] returns a value and leaves the object as it found it:
    the same argument gives the same value again, whatever other calls of
    [GetValue] came in between, and a process that only evaluates does not
    change. *)
Theorem GetValue_is_pure
    (T : Type) (D : Double T) (x x' : T) (this : obj T)
    (xs : list T) (p : process T) :
  snd (GetValue x this) = this /\
  fst (GetValue x (snd (GetValue x this))) = fst (GetValue x this) /\
  fst (GetValue x (snd (GetValue x' this))) = fst (GetValue x this) /\
  run (map (@Call_GetValue T) xs) p = Some p.
Proof.
  repeat split.
  induction xs as [|y ys IH]; cbn [map run]; [reflexivity|].
  rewrite step_GetValue. exact IH.
Qed.

(** C9, amended.  In binary64 the value depends on the argument only
    through [fabs(x - x0)]: two arguments at the same computed distance from
    the centre get the same value, and so do [x0 + d] and [x0 - d] whenever
    the two sums are mirror images of each other, that is when
    [(x0 + d) - x0] is [d] and [(x0 - d) - x0] is [-d].  Over the reals
    [GetValue(x0 + d) = GetValue(x0 - d)] for every [d].  Over the reals and
    in binary64 alike, [Setup] with [-s] for [sigma] gives the same values
    as [Setup] with [s], at every argument. *)
Theorem gaussian1d_symmetry
    (m : libm)
    (thisR : obj R) (d : R) (ZPr mur sr xcr : R) (rawR : obj R)
    (this : obj float) (x x' d64 : float) (ZP mu s xc : float) (raw : obj float) :
  abs (x - x0 this)%float = abs (x' - x0 this)%float ->
  ((x0 this + d64) - x0 this)%float = d64 ->
  ((x0 this - d64) - x0 this)%float = (- d64)%float ->
  fst (@GetValue R exact (x0 thisR + d)%R thisR)
  = fst (@GetValue R exact (x0 thisR - d)%R thisR) /\
  fst (@GetValue float (binary64 m) x this)
  = fst (@GetValue float (binary64 m) x' this) /\
  fst (@GetValue float (binary64 m) (x0 this + d64)%float this)
  = fst (@GetValue float (binary64 m) (x0 this - d64)%float this) /\
  (exists g g',
     @Setup R exact ZPr [mur; sr] 0 xcr rawR = Some g /\
     @Setup R exact ZPr [mur; (- sr)%R] 0 xcr rawR = Some g' /\
     forall y, fst (@GetValue R exact y g') = fst (@GetValue R exact y g)) /\
  (exists g g',
     @Setup float (binary64 m) ZP [mu; s] 0 xc raw = Some g /\
     @Setup float (binary64 m) ZP [mu; (- s)%float] 0 xc raw = Some g' /\
     forall y, fst (@GetValue float (binary64 m) y g')
               = fst (@GetValue float (binary64 m) y g)).
Proof.
  intros Habs Hplus Hminus. repeat split.
  - cbn. rewrite Rabs_mirror. reflexivity.
  - rewrite !GetValue_binary64, Habs. reflexivity.
  - rewrite !GetValue_binary64, Hplus, Hminus, F64.abs_opp. reflexivity.
  - do 2 eexists. split; [reflexivity|]. split; [reflexivity|].
    intros y. cbn. do 2 f_equal.
    unfold Rdiv. rewrite Rinv_opp. ring.
  - do 2 eexists. split; [reflexivity|]. split; [reflexivity|].
    intros y. symmetry.
    now apply (GetValue_sigma_sign m y xc
                 (libm_pow m 10 (0.4 * (ZP - mu)))%float s).
Qed.

(** C9, amended, at the pixels 19 and 13 either side of the centre 16. *)
Lemma gaussian1d_symmetry_witness :
  fst (@GetValue R exact (x0 zeroed_exact + 3)%R zeroed_exact)
  = fst (@GetValue R exact (x0 zeroed_exact - 3)%R zeroed_exact) /\
  fst (@GetValue float (binary64 SeriesLibm.series_libm) 19%float
         (@Gaussian1D.Build_obj float 2 "" "" [] 16 20 3 100)%float)
  = fst (@GetValue float (binary64 SeriesLibm.series_libm) 13%float
         (@Gaussian1D.Build_obj float 2 "" "" [] 16 20 3 100)%float) /\
  fst (@GetValue float (binary64 SeriesLibm.series_libm) (16 + 3)%float
         (@Gaussian1D.Build_obj float 2 "" "" [] 16 20 3 100)%float)
  = fst (@GetValue float (binary64 SeriesLibm.series_libm) (16 - 3)%float
         (@Gaussian1D.Build_obj float 2 "" "" [] 16 20 3 100)%float) /\
  (exists g g',
     @Setup R exact 25%R [20%R; 3%R] 0 16%R zeroed_exact = Some g /\
     @Setup R exact 25%R [20%R; (- 3)%R] 0 16%R zeroed_exact = Some g' /\
     forall y, fst (@GetValue R exact y g') = fst (@GetValue R exact y g)) /\
  (exists g g',
     @Setup float (binary64 SeriesLibm.series_libm) 25%float
       [20%float; 3%float] 0 16%float zeroed_binary64 = Some g /\
     @Setup float (binary64 SeriesLibm.series_libm) 25%float
       [20%float; (- 3)%float] 0 16%float zeroed_binary64 = Some g' /\
     forall y, fst (@GetValue float (binary64 SeriesLibm.series_libm) y g')
               = fst (@GetValue float (binary64 SeriesLibm.series_libm) y g)).
Proof.
  apply (@gaussian1d_symmetry SeriesLibm.series_libm
           zeroed_exact 3%R 25%R 20%R 3%R 16%R zeroed_exact
           (@Gaussian1D.Build_obj float 2 "" "" [] 16 20 3 100)%float
           19%float 13%float 3%float 25%float 20%float 3%float 16%float
           zeroed_binary64).
  - reflexivity.
  - reflexivity.
  - reflexivity.
Defined.

(** C5 as the specification has it fails.  With [sigma = -3] (and
    [mu_0 = 20], centre 16, zero point 25) the value at the centre is the
    peak value 100 that [sigma = 3] gives, for every math library whose
    [pow(10, 2)] is 100 and whose [exp(-0)] is 1: no such library makes the
    value a NaN.  The series library is one of them. *)
Lemma sigma_domain_counterexample :
  (~ exists m : libm,
       libm_pow m 10%float 2%float = 100%float /\
       libm_exp m (-0)%float = 1%float /\
       match @Setup float (binary64 m) 25%float [20%float; (-3)%float] 0
               16%float zeroed_binary64 with
       | Some g => is_nan (fst (@GetValue float (binary64 m) 16%float g)) = true
       | None => True
       end) /\
  match @Setup float (binary64 SeriesLibm.series_libm) 25%float
          [20%float; (-3)%float] 0 16%float zeroed_binary64 with
  | Some g =>
      fst (@GetValue float (binary64 SeriesLibm.series_libm) 16%float g)
      = 100%float
  | None => False
  end.
Proof.
  split; [|vm_compute; reflexivity].
  intros (m & Hpow & Hexp & H).
  change (is_nan (libm_pow m 10 2 * libm_exp m (-0))%float = true) in H.
  rewrite Hpow, Hexp in H. vm_compute in H. discriminate.
Qed.

(** C5, amended.  The Gaussian does not examine [sigma].  With a negative
    [sigma] every value is the value the positive [sigma] of the same size
    gives.  With [sigma] zero, [GetValue] hands [exp] a NaN at the centre
    and minus infinity everywhere else, and returns [I_0] times what [exp]
    makes of it. *)
Theorem sigma_domain_unchecked
    (m : libm) (ZP mu s z xc x x_c x_o : float) (raw : obj float) :
  (z =? 0)%float = true ->
  (x_c - xc =? 0)%float = true ->
  (0 <? abs (x_o - xc))%float = true ->
  (exists g g',
     @Setup float (binary64 m) ZP [mu; s] 0 xc raw = Some g /\
     @Setup float (binary64 m) ZP [mu; (- s)%float] 0 xc raw = Some g' /\
     fst (@GetValue float (binary64 m) x g')
     = fst (@GetValue float (binary64 m) x g)) /\
  (exists g,
     @Setup float (binary64 m) ZP [mu; z] 0 xc raw = Some g /\
     fst (@GetValue float (binary64 m) x_c g) = (I_0 g * libm_exp m nan)%float /\
     fst (@GetValue float (binary64 m) x_o g)
     = (I_0 g * libm_exp m neg_infinity)%float).
Proof.
  intros Hz Hc Ho. split.
  - do 2 eexists. split; [reflexivity|]. split; [reflexivity|].
    symmetry.
    now apply (GetValue_sigma_sign m x xc
                 (libm_pow m 10 (0.4 * (ZP - mu)))%float s).
  - eexists. split; [reflexivity|].
    rewrite !GetValue_binary64. cbn [I_0 x0 sigma]. split.
    + rewrite (F64.div_zero_zero _ _ (F64.abs_zero _ Hc) Hz). reflexivity.
    + destruct (F64.div_pos_zero _ _ Ho Hz) as [sg Hinf].
      rewrite (F64.neg_sq_inf_half _ _ Hinf). reflexivity.
Qed.

(** The amended C5 with [sigma = 3] against [sigma = -3], and with [sigma]
    zero at the centre 16 and at the pixel 19. *)
Lemma sigma_domain_unchecked_witness :
  (exists g g',
     @Setup float (binary64 SeriesLibm.series_libm) 25%float
       [20%float; 3%float] 0 16%float zeroed_binary64 = Some g /\
     @Setup float (binary64 SeriesLibm.series_libm) 25%float
       [20%float; (- 3)%float] 0 16%float zeroed_binary64 = Some g' /\
     fst (@GetValue float (binary64 SeriesLibm.series_libm) 17%float g')
     = fst (@GetValue float (binary64 SeriesLibm.series_libm) 17%float g)) /\
  (exists g,
     @Setup float (binary64 SeriesLibm.series_libm) 25%float
       [20%float; 0%float] 0 16%float zeroed_binary64 = Some g /\
     fst (@GetValue float (binary64 SeriesLibm.series_libm) 16%float g)
     = (I_0 g * libm_exp SeriesLibm.series_libm nan)%float /\
     fst (@GetValue float (binary64 SeriesLibm.series_libm) 19%float g)
     = (I_0 g * libm_exp SeriesLibm.series_libm neg_infinity)%float).
Proof.
  apply (@sigma_domain_unchecked SeriesLibm.series_libm
           25%float 20%float 3%float 0%float 16%float 17%float 16%float 19%float
           zeroed_binary64); reflexivity.
Defined.

End Gaussian1D_claims.

(* ================================================================== *)
(** * image_io.cpp: errors end the process *)

Section ImageIO_errors.
Import ImageIO.
Local Open Scope Z_scope.

Lemma PrintError_cases (status : Z) :
  (status = 0 /\ PrintError status = Returns tt) \/
  (status <> 0 /\ PrintError status = Exits status).
Proof.
  unfold PrintError. destruct (Z.eqb_spec status 0); [left | right]; auto.
Qed.

(** The guarded call of [PrintError], with [problems] the status itself as
    it is at every call site. *)
Lemma if_problems_cases (status : Z) :
  (status = 0 /\ if_problems status status = Returns tt) \/
  (status <> 0 /\ if_problems status status = Exits status).
Proof.
  unfold if_problems, PrintError.
  destruct (Z.eqb_spec status 0); [left | right]; auto.
Qed.

(** Entered with a status that is not 0, a routine hands it back. *)
Lemma fits_write_date_inherits fptr flt status :
  status <> 0 -> fits_write_date fptr flt status = (fptr, status).
Proof.
  intros Hs. unfold fits_write_date. now destruct (Z.eqb_spec status 0).
Qed.

Lemma fits_write_pix_inherits fptr n array flt status :
  status <> 0 -> fits_write_pix fptr n array flt status = Some (fptr, status).
Proof.
  intros Hs. unfold fits_write_pix. now destruct (Z.eqb_spec status 0).
Qed.

Lemma fits_create_img_inherits fptr bitpix naxes flt status :
  status <> 0 -> fits_create_img fptr bitpix naxes flt status = (fptr, status).
Proof.
  intros Hs. unfold fits_create_img. now destruct (Z.eqb_spec status 0).
Qed.

Lemma if_problems_exits status (B : Type) (k : unit -> outcome B) :
  status <> 0 -> (x <- if_problems status status ;; k x) = Exits status.
Proof.
  intros Hs. destruct (if_problems_cases status) as [[? _]|[_ ->]];
    [contradiction | reflexivity].
Qed.

(** A status that is not 0 goes through the comment loop untouched. *)
Lemma write_comments_inherits comments :
  forall fptr i flt status,
    status <> 0 -> write_comments fptr i comments flt status = (fptr, status).
Proof.
  induction comments as [|c rest IH]; intros fptr i flt status Hs; cbn.
  - reflexivity.
  - unfold fits_write_comment.
    destruct (Z.eqb_spec status 0); [contradiction|]. now apply IH.
Qed.

(** The comment loop ends with status 0 only if it began with status 0 and
    no comment failed. *)
Lemma write_comments_ok comments :
  forall fptr i flt status fptr',
    write_comments fptr i comments flt status = (fptr', 0) ->
    status = 0 /\
    forall k, (k < List.length comments)%nat -> fptr <> None ->
              flt (write_comment (i + k)) = 0.
Proof.
  induction comments as [|c rest IH]; intros fptr i flt status fptr'; cbn.
  - intros [= _ ->]. split; [reflexivity | intros k Hk; lia].
  - unfold fits_write_comment.
    destruct (Z.eqb_spec status 0) as [->|Hs].
    + destruct fptr as [f|].
      * destruct (Z.eqb_spec (flt (write_comment i)) 0) as [H0|H0].
        -- intros H. destruct (IH _ _ _ _ _ H) as [_ Hall].
           split; [reflexivity|]. intros [|k] Hk _.
           ++ now rewrite Nat.add_0_r.
           ++ rewrite Nat.add_succ_r. apply (Hall k); [lia | discriminate].
        -- intros H. rewrite write_comments_inherits in H by assumption.
           injection H as _ H. contradiction.
      * intros H. rewrite write_comments_inherits in H by discriminate.
        discriminate.
    + intros H. rewrite write_comments_inherits in H by assumption.
      injection H as _ H. contradiction.
Qed.

(** What [ReadImageAsVector] comes to: it returns only if the file is there
    and the four cfitsio calls succeed, and otherwise exits with a status
    that is not 0. *)
Lemma ReadImageAsVector_outcome filename verbose d flt :
  match ReadImageAsVector filename verbose d flt with
  | Returns _ =>
      d filename <> None /\ flt open_file = 0 /\ flt read_keys_lng = 0 /\
      flt read_pix = 0 /\ flt close_file = 0
  | Exits status => status <> 0
  | Undefined => False
  end.
Proof.
  unfold ReadImageAsVector, fits_open_file. cbn [Z.eqb].
  destruct (d filename) as [f|]; [|cbn; discriminate].
  destruct (Z.eqb_spec (flt open_file) 0) as [Ho|Ho].
  2:{ destruct (if_problems_cases (flt open_file)) as [[? _]|[_ ->]];
        [contradiction | exact Ho]. }
  cbn [if_problems Z.eqb bind fits_read_keys_lng].
  destruct (Z.eqb_spec (flt read_keys_lng) 0) as [Hk|Hk].
  2:{ destruct (if_problems_cases (flt read_keys_lng)) as [[? _]|[_ ->]];
        [contradiction | exact Hk]. }
  cbn [if_problems Z.eqb bind fits_read_pix fst snd].
  destruct (_ || _)%bool; [cbn; discriminate|].
  destruct (Z.eqb_spec (flt read_pix) 0) as [Hp|Hp].
  2:{ destruct (if_problems_cases (flt read_pix)) as [[? _]|[_ ->]];
        [contradiction | exact Hp]. }
  cbn [if_problems Z.eqb bind fits_close_file].
  destruct (if_problems_cases (flt close_file)) as [[Hc ->]|[Hc ->]]; cbn.
  - repeat split; try assumption. discriminate.
  - exact Hc.
Qed.

(** Once a status is not 0, the routines that follow hand it on and the next
    check exits with it. *)
Ltac inherited :=
  rewrite ?fits_create_img_inherits, ?write_comments_inherits,
    ?fits_write_date_inherits, ?fits_write_pix_inherits
    by (assumption || discriminate);
  rewrite if_problems_exits by (assumption || discriminate).

(** What [SaveVectorAsImage] comes to: it returns only if every cfitsio
    call succeeded; a failure of any of them, checked on the spot or not,
    ends in an exit with a status that is not 0. *)
Lemma SaveVectorAsImage_outcome pixelVector filename nColumns nRows comments d flt :
  match SaveVectorAsImage pixelVector filename nColumns nRows comments d flt with
  | Returns _ =>
      flt create_file = 0 /\ flt create_img = 0 /\
      Forall (fun k => flt (write_comment k) = 0) (seq 0 (List.length comments)) /\
      flt write_date = 0 /\ flt write_pix = 0 /\ flt close_file = 0
  | Exits status => status <> 0
  | Undefined =>
      Z.of_nat (List.length pixelVector) < int32 (nColumns * nRows)
  end.
Proof.
  unfold SaveVectorAsImage, fits_create_file. cbn [Z.eqb].
  destruct (Z.eqb_spec (flt create_file) 0) as [Hcf|Hcf].
  2:{ inherited. exact Hcf. }
  unfold fits_create_img. cbn [Z.eqb].
  destruct (Z.eqb_spec (flt create_img) 0) as [Hci|Hci].
  2:{ inherited. exact Hci. }
  set (img := Some _).
  destruct (write_comments img 0 comments flt 0) as [f1 s1] eqn:Hwc.
  destruct (Z.eq_dec s1 0) as [->|Hs1].
  2:{ inherited. exact Hs1. }
  destruct (write_comments_ok _ _ _ _ _ _ Hwc) as [_ Hcom].
  assert (Hall : Forall (fun k => flt (write_comment k) = 0)
                   (seq 0 (List.length comments))).
  { apply Forall_forall. intros k Hk. apply in_seq in Hk.
    apply (Hcom k); [lia | discriminate]. }
  unfold fits_write_date. cbn [Z.eqb].
  destruct f1 as [f1|].
  2:{ inherited. discriminate. }
  destruct (Z.eqb_spec (flt write_date) 0) as [Hwd|Hwd].
  2:{ inherited. exact Hwd. }
  unfold fits_write_pix. cbn [Z.eqb].
  destruct (Z.eqb_spec (flt write_pix) 0) as [Hwp|Hwp].
  2:{ inherited. exact Hwp. }
  destruct (Z.ltb_spec (Z.of_nat (List.length pixelVector))
              (int32 (nColumns * nRows))) as [Hshort|_]; [exact Hshort|].
  cbn [if_problems Z.eqb bind fits_close_file].
  destruct (if_problems_cases (flt close_file)) as [[Hc ->]|[Hc ->]]; cbn.
  - repeat split; assumption.
  - exact Hc.
Qed.

(** C6.  The I/O functions end the process on an error.  [PrintError] with a
    status that is not 0 is [exit(status)].  [ReadImageAsVector] returns to
    its caller only when the opening of the file, the reading of the
    keywords, the reading of the pixels and the closing all succeeded, and
    [SaveVectorAsImage] only when the creation of the file and of the image,
    the header writes, the writing of the pixels and the closing all
    succeeded; in every other case the process exits with a status that is
    not 0 (the one case apart where the caller's array is too short to read
    from). *)
Theorem io_errors_exit
    (status : Z) (filename : string) (verbose : bool) (d : disk) (flt : faults)
    (pixelVector : list float) (nColumns nRows : Z) (comments : list string) :
  ((status = 0 /\ PrintError status = Returns tt) \/
   (status <> 0 /\ PrintError status = Exits status)) /\
  match ReadImageAsVector filename verbose d flt with
  | Returns _ =>
      d filename <> None /\ flt open_file = 0 /\ flt read_keys_lng = 0 /\
      flt read_pix = 0 /\ flt close_file = 0
  | Exits status => status <> 0
  | Undefined => False
  end /\
  match SaveVectorAsImage pixelVector filename nColumns nRows comments d flt with
  | Returns _ =>
      flt create_file = 0 /\ flt create_img = 0 /\
      Forall (fun k => flt (write_comment k) = 0) (seq 0 (List.length comments)) /\
      flt write_date = 0 /\ flt write_pix = 0 /\ flt close_file = 0
  | Exits status => status <> 0
  | Undefined =>
      Z.of_nat (List.length pixelVector) < int32 (nColumns * nRows)
  end.
Proof.
  split; [apply PrintError_cases|].
  split; [apply ReadImageAsVector_outcome | apply SaveVectorAsImage_outcome].
Qed.

End ImageIO_errors.

(* ================================================================== *)
(** * image_io.cpp: the layout of the pixels and the round trip *)

Section ImageIO_layout.
Import ImageIO.
Local Open Scope Z_scope.

Lemma int32_small (z : Z) : - 2 ^ 31 <= z < 2 ^ 31 -> int32 z = z.
Proof.
  intros H. unfold int32. rewrite Z.mod_small by lia. lia.
Qed.

(** Reading a well-formed file when no routine fails. *)
Lemma ReadImageAsVector_reads filename verbose d flt f :
  d filename = Some f ->
  flt open_file = 0 -> flt read_keys_lng = 0 ->
  flt read_pix = 0 -> flt close_file = 0 ->
  well_formed f ->
  ReadImageAsVector filename verbose d flt
  = Returns (map to_double (data f), NAXIS1 f, NAXIS2 f).
Proof.
  intros Hd Ho Hk Hp Hc (H1 & H2 & H3 & Hlen).
  unfold ReadImageAsVector, fits_open_file, fits_read_keys_lng,
    fits_read_pix, fits_close_file.
  cbn [Z.eqb]. rewrite Hd, Ho. cbn [Z.eqb if_problems bind].
  rewrite Hk. cbn [Z.eqb if_problems bind fst snd].
  assert (Hc1 : int32 (NAXIS1 f) = NAXIS1 f) by (apply int32_small; nia).
  assert (Hc2 : int32 (NAXIS2 f) = NAXIS2 f) by (apply int32_small; nia).
  rewrite Hc1, Hc2.
  assert (Hn : int32 (NAXIS1 f * NAXIS2 f) = NAXIS1 f * NAXIS2 f)
    by (apply int32_small; nia).
  rewrite Hn.
  destruct (Z.ltb_spec (NAXIS1 f * NAXIS2 f) 0) as [Hneg|_]; [nia|].
  destruct (Z.ltb_spec (Z.of_nat (List.length (data f))) (NAXIS1 f * NAXIS2 f))
    as [Hshort|_]; [lia|].
  cbn [orb]. rewrite Hp. cbn [Z.eqb if_problems bind].
  rewrite Hc. cbn [Z.eqb if_problems bind].
  rewrite <- Hlen, Nat2Z.id, firstn_all. reflexivity.
Qed.

(** Saving when no routine fails. *)
Lemma write_comments_writes comments :
  forall f i flt,
    (forall r, flt r = 0) ->
    write_comments (Some f) i comments flt 0
    = (Some {| BITPIX := BITPIX f; NAXIS1 := NAXIS1 f; NAXIS2 := NAXIS2 f;
               COMMENT := COMMENT f ++ comments; DATE := DATE f;
               data := data f |}, 0).
Proof.
  induction comments as [|c rest IH]; intros f i flt Hflt; cbn.
  - rewrite app_nil_r. now destruct f.
  - rewrite Hflt. cbn [Z.eqb]. rewrite IH by assumption. cbn.
    now rewrite <- app_assoc.
Qed.

Lemma SaveVectorAsImage_writes pixelVector filename nColumns nRows comments d flt :
  (forall r, flt r = 0) ->
  0 < nColumns -> 0 < nRows -> nColumns * nRows < 2 ^ 31 ->
  Z.of_nat (List.length pixelVector) = nColumns * nRows ->
  SaveVectorAsImage pixelVector filename nColumns nRows comments d flt
  = Returns (store d filename
               {| BITPIX := FLOAT_IMG; NAXIS1 := nColumns; NAXIS2 := nRows;
                  COMMENT := comments; DATE := true;
                  data := map to_float32 pixelVector |}).
Proof.
  intros Hflt Hc Hr Hn Hlen.
  unfold SaveVectorAsImage, fits_create_file, fits_create_img.
  cbn [Z.eqb]. rewrite !Hflt. cbn [Z.eqb].
  rewrite write_comments_writes by assumption.
  unfold fits_write_date, fits_write_pix, fits_close_file.
  cbn [Z.eqb]. rewrite !Hflt. cbn [Z.eqb].
  rewrite int32_small by nia.
  destruct (Z.ltb_spec (Z.of_nat (List.length pixelVector)) (nColumns * nRows))
    as [Hshort|_]; [lia|].
  cbn.
  rewrite <- Hlen, Nat2Z.id, firstn_all. reflexivity.
Qed.

Lemma store_same d filename f : store d filename f filename = Some f.
Proof. unfold store. now rewrite String.eqb_refl. Qed.

Lemma read_map (A B : Type) (g : A -> B) (l : list A) (k : Z) :
  read (map g l) k = option_map g (read l k).
Proof.
  unfold read. destruct (k <? 0); [reflexivity|]. apply nth_error_map.
Qed.

(** Row-major indices stay inside the array and determine the pixel. *)
Lemma row_major_range nCols nRows i j :
  0 <= i < nCols -> 0 <= j < nRows ->
  0 <= j * nCols + i < nCols * nRows.
Proof. nia. Qed.

Lemma row_major_inverse nCols i j :
  0 <= i < nCols -> 0 <= j ->
  (j * nCols + i) mod nCols = i /\ (j * nCols + i) / nCols = j.
Proof.
  intros Hi Hj. split.
  - rewrite Z.add_comm, Z.mod_add by lia. apply Z.mod_small; lia.
  - rewrite Z.add_comm, Z.div_add by lia. rewrite Z.div_small by lia. lia.
Qed.

(** C8.  [ReadImageAsVector] takes the number of columns from NAXIS1 and the
    number of rows from NAXIS2 and returns the pixels row by row: the pixel
    in column [i+1], row [j+1] of the file is at index [j * nCols + i] of the
    array, from which [i] and [j] are recovered as remainder and quotient
    by [nCols]; the first pixel of the file (the lower-left one) is at
    index 0 and the last (the upper-right one) at index [nCols * nRows - 1]. *)
Theorem image_row_major
    (filename : string) (verbose : bool) (d : disk) (flt : faults)
    (f : fits_image) (i j : Z) :
  d filename = Some f ->
  flt open_file = 0 -> flt read_keys_lng = 0 ->
  flt read_pix = 0 -> flt close_file = 0 ->
  well_formed f ->
  0 <= i < NAXIS1 f -> 0 <= j < NAXIS2 f ->
  exists imageVector nColumns nRows,
    ReadImageAsVector filename verbose d flt
    = Returns (imageVector, nColumns, nRows) /\
    nColumns = NAXIS1 f /\ nRows = NAXIS2 f /\
    Z.of_nat (List.length imageVector) = nColumns * nRows /\
    0 <= j * nColumns + i < nColumns * nRows /\
    read imageVector (j * nColumns + i) <> None /\
    read imageVector (j * nColumns + i)
    = option_map to_double (fits_pixel f (i + 1) (j + 1)) /\
    (j * nColumns + i) mod nColumns = i /\
    (j * nColumns + i) / nColumns = j /\
    read imageVector 0 = option_map to_double (fits_pixel f 1 1) /\
    read imageVector (nColumns * nRows - 1)
    = option_map to_double (fits_pixel f (NAXIS1 f) (NAXIS2 f)).
Proof.
  intros Hd Ho Hk Hp Hc Hwf Hi Hj.
  exists (map to_double (data f)), (NAXIS1 f), (NAXIS2 f).
  split; [now apply ReadImageAsVector_reads|].
  destruct Hwf as (H1 & H2 & H3 & Hlen).
  assert (Hpix : forall a b, 0 <= a < NAXIS1 f -> 0 <= b < NAXIS2 f ->
            read (map to_double (data f)) (b * NAXIS1 f + a)
            = option_map to_double (fits_pixel f (a + 1) (b + 1))).
  { intros a b Ha Hb. rewrite read_map. unfold fits_pixel.
    replace ((1 <=? a + 1) && (a + 1 <=? NAXIS1 f) && (1 <=? b + 1)
             && (b + 1 <=? NAXIS2 f))%bool with true
      by (symmetry; rewrite !andb_true_iff, !Z.leb_le; lia).
    do 2 f_equal. lia. }
  assert (Hrange := row_major_range (NAXIS1 f) (NAXIS2 f) i j Hi Hj).
  destruct (row_major_inverse (NAXIS1 f) i j Hi (proj1 Hj)) as [Hmod Hdiv].
  assert (Hlen' : Z.of_nat (List.length (map to_double (data f)))
                  = NAXIS1 f * NAXIS2 f) by now rewrite length_map.
  split; [reflexivity|]. split; [reflexivity|].
  split; [exact Hlen'|]. split; [exact Hrange|].
  split.
  { rewrite (read_nth _ _ _ 0%float) by lia. discriminate. }
  split; [now apply Hpix|].
  split; [exact Hmod|]. split; [exact Hdiv|].
  split.
  - replace 0 with (0 * NAXIS1 f + 0) at 1 by lia.
    rewrite Hpix by lia. reflexivity.
  - replace (NAXIS1 f * NAXIS2 f - 1)
      with ((NAXIS2 f - 1) * NAXIS1 f + (NAXIS1 f - 1)) by lia.
    rewrite Hpix by lia. do 2 f_equal; lia.
Qed.

(** C8 on an image of three columns and two rows, at its last pixel. *)
Lemma image_row_major_witness :
  exists imageVector nColumns nRows,
    ReadImageAsVector "image.fits" false
      (store empty_disk "image.fits" image_3x2) no_faults
    = Returns (imageVector, nColumns, nRows) /\
    nColumns = NAXIS1 image_3x2 /\ nRows = NAXIS2 image_3x2 /\
    Z.of_nat (List.length imageVector) = nColumns * nRows /\
    0 <= 1 * nColumns + 2 < nColumns * nRows /\
    read imageVector (1 * nColumns + 2) <> None /\
    read imageVector (1 * nColumns + 2)
    = option_map to_double (fits_pixel image_3x2 (2 + 1) (1 + 1)) /\
    (1 * nColumns + 2) mod nColumns = 2 /\
    (1 * nColumns + 2) / nColumns = 1 /\
    read imageVector 0 = option_map to_double (fits_pixel image_3x2 1 1) /\
    read imageVector (nColumns * nRows - 1)
    = option_map to_double
        (fits_pixel image_3x2 (NAXIS1 image_3x2) (NAXIS2 image_3x2)).
Proof.
  apply (image_row_major "image.fits" false
           (store empty_disk "image.fits" image_3x2) no_faults image_3x2 2 1).
  - reflexivity.
  - reflexivity.
  - reflexivity.
  - reflexivity.
  - reflexivity.
  - unfold well_formed. cbn. lia.
  - cbn. lia.
  - cbn. lia.
Defined.

(** C10.  An image saved by [SaveVectorAsImage] is a single-precision image
    ([FLOAT_IMG]) of the given size, and [ReadImageAsVector] gets back from
    it the size and, for each pixel, the double rounded to single precision:
    the very value when a float holds it, as for the nine pixels of
    [tinyImage], and a neighbour of it otherwise, as for 0.1, which comes
    back as 0.100000001490116..., within 1e-6 of what was saved. *)
Theorem save_read_round_trip
    (pixelVector : list float) (filename : string) (nColumns nRows : Z)
    (comments : list string) (verbose : bool) (d : disk) (flt : faults) :
  (forall r, flt r = 0) ->
  0 < nColumns -> 0 < nRows -> nColumns * nRows < 2 ^ 31 ->
  Z.of_nat (List.length pixelVector) = nColumns * nRows ->
  exists d' f,
    SaveVectorAsImage pixelVector filename nColumns nRows comments d flt
    = Returns d' /\
    d' filename = Some f /\
    BITPIX f = FLOAT_IMG /\ NAXIS1 f = nColumns /\ NAXIS2 f = nRows /\
    ReadImageAsVector filename verbose d' flt
    = Returns (map through_float32 pixelVector, nColumns, nRows) /\
    map through_float32 tinyImage = tinyImage /\
    through_float32 0.1%float = 0x1.99999ap-4%float /\
    (through_float32 0.1 =? 0.1)%float = false /\
    (abs (through_float32 0.1 - 0.1) <? 1e-6)%float = true.
Proof.
  intros Hflt Hc Hr Hn Hlen.
  eexists. eexists.
  split; [now apply SaveVectorAsImage_writes|].
  split; [apply store_same|].
  cbn [BITPIX NAXIS1 NAXIS2].
  repeat (split; [reflexivity|]).
  split.
  - rewrite (ReadImageAsVector_reads filename verbose _ flt _ (store_same _ _ _))
      by (try apply Hflt; unfold well_formed; cbn [NAXIS1 NAXIS2 data];
          rewrite ?length_map; lia).
    cbn [NAXIS1 NAXIS2 data]. rewrite map_map. reflexivity.
  - repeat split; vm_compute; reflexivity.
Qed.

(** C10 on the test of the repository: [tinyImage], three by three, saved
    without comments and read back. *)
Lemma save_read_round_trip_witness :
  exists d' f,
    SaveVectorAsImage tinyImage "tinyimage_temp.fits" 3 3 [] empty_disk no_faults
    = Returns d' /\
    d' "tinyimage_temp.fits"%string = Some f /\
    BITPIX f = FLOAT_IMG /\ NAXIS1 f = 3 /\ NAXIS2 f = 3 /\
    ReadImageAsVector "tinyimage_temp.fits" false d' no_faults
    = Returns (map through_float32 tinyImage, 3, 3) /\
    map through_float32 tinyImage = tinyImage /\
    through_float32 0.1%float = 0x1.99999ap-4%float /\
    (through_float32 0.1 =? 0.1)%float = false /\
    (abs (through_float32 0.1 - 0.1) <? 1e-6)%float = true.
Proof.
  apply (save_read_round_trip tinyImage "tinyimage_temp.fits" 3 3 [] false
           empty_disk no_faults).
  - reflexivity.
  - lia.
  - lia.
  - lia.
  - reflexivity.
Defined.

End ImageIO_layout.

(* ================================================================== *)
(** * ExponentialDisk3D *)

Section ExponentialDisk3D_claims.
Import ExponentialDisk3D.

(** C3.  [Setup] of the inclined disk loads [PA], [inclination], [I_0], [h]
    and [h_z] from [params[offset]] to [params[offset+4]] and the centre
    from [(xc, yc)], and [GetValue(x, y)] is the integral along the line of
    sight, over the path parameter [s], of
    [I_0 * exp(-R(s)/h) * exp(-|Z(s)|/h_z)], with [R(s)] and [Z(s)] got from
    the inclination and the pixel's coordinates along the axes, handed to
    the one-dimensional integrator; the object is left as it was. *)
Theorem expdisk3d_line_of_sight
    (T : Type) (D : Double T) (N : Numerics T)
    (R_s Z_s : T -> T -> T -> T -> T -> T)
    (params : list T) (offsetIndex : Z) (xc yc x y : T) (this : obj T)
    (dflt : T) :
  (0 <= offsetIndex)%Z ->
  (offsetIndex + 5 <= Z.of_nat (List.length params))%Z ->
  exists g,
    Setup params offsetIndex xc yc this = Some g /\
    x0 g = xc /\ y0 g = yc /\
    PA g = nth (Z.to_nat offsetIndex) params dflt /\
    inclination g = nth (Z.to_nat offsetIndex + 1) params dflt /\
    I_0 g = nth (Z.to_nat offsetIndex + 2) params dflt /\
    h g = nth (Z.to_nat offsetIndex + 3) params dflt /\
    h_z g = nth (Z.to_nat offsetIndex + 4) params dflt /\
    fst (GetValue R_s Z_s x y g)
    = Integrate
        (fun s =>
           (I_0 g
            * m_exp (- (R_s (cosInc g) (sinInc g) (xp g x y) (yp g x y) s / h g))
            * m_exp (- (fabs (Z_s (cosInc g) (sinInc g) (xp g x y) (yp g x y) s)
                        / h_z g)))%dbl)
        (- integLimit g)%dbl (integLimit g) /\
    snd (GetValue R_s Z_s x y g) = g.
Proof.
  intros Hlo Hhi.
  assert (Hread : forall k : Z, (0 <= k < 5)%Z ->
            read params (k + offsetIndex)
            = Some (nth (Z.to_nat offsetIndex + Z.to_nat k) params dflt)).
  { intros k Hk.
    rewrite (read_nth _ params (k + offsetIndex) dflt) by lia.
    do 2 f_equal. lia. }
  unfold Setup.
  rewrite (Hread 0%Z), (Hread 1%Z), (Hread 2%Z), (Hread 3%Z), (Hread 4%Z) by lia.
  change (Z.to_nat 0) with 0%nat. rewrite Nat.add_0_r.
  eexists. split; [reflexivity|]. cbn. repeat split.
Qed.

(** C3 on a vector of six values read at offset 1, over the reals. *)
Lemma expdisk3d_line_of_sight_witness :
  exists g,
    @Setup R exact_numerics
      [9; 30; 60; 1; 10; 2]%R 1 32%R 32%R zeroed_disk = Some g /\
    x0 g = 32%R /\ y0 g = 32%R /\
    PA g = nth (Z.to_nat 1) [9; 30; 60; 1; 10; 2]%R 0%R /\
    inclination g = nth (Z.to_nat 1 + 1) [9; 30; 60; 1; 10; 2]%R 0%R /\
    I_0 g = nth (Z.to_nat 1 + 2) [9; 30; 60; 1; 10; 2]%R 0%R /\
    h g = nth (Z.to_nat 1 + 3) [9; 30; 60; 1; 10; 2]%R 0%R /\
    h_z g = nth (Z.to_nat 1 + 4) [9; 30; 60; 1; 10; 2]%R 0%R /\
    fst (@GetValue R exact exact_numerics rotated_R rotated_Z 40%R 35%R g)
    = @Integrate R exact_numerics
        (fun s =>
           (I_0 g
            * exp (- (rotated_R (cosInc g) (sinInc g)
                        (@xp R exact exact_numerics g 40 35)
                        (@yp R exact exact_numerics g 40 35) s / h g))
            * exp (- (Rabs (rotated_Z (cosInc g) (sinInc g)
                              (@xp R exact exact_numerics g 40 35)
                              (@yp R exact exact_numerics g 40 35) s)
                      / h_z g)))%R)
        (- @integLimit R exact exact_numerics g)%R
        (@integLimit R exact exact_numerics g) /\
    snd (@GetValue R exact exact_numerics rotated_R rotated_Z 40%R 35%R g) = g.
Proof.
  apply (@expdisk3d_line_of_sight R exact exact_numerics rotated_R rotated_Z
           [9; 30; 60; 1; 10; 2]%R 1 32%R 32%R 40%R 35%R zeroed_disk 0%R).
  - lia.
  - simpl; lia.
Defined.

End ExponentialDisk3D_claims.

(* ================================================================== *)
(** * Further properties of the Gaussian *)

(** ** Classes of binary64 values *)

Module F64_classes.
Local Open Scope float_scope.

Lemma is_nan_spec x : is_nan x = true -> Prim2SF x = S754_nan.
Proof.
  unfold is_nan. rewrite eqb_spec.
  destruct (Prim2SF x) as [s|s| |s m e]; cbn; trivial; try (destruct s; discriminate).
  unfold SFeqb, SFcompare.
  destruct s; rewrite Z.compare_refl, Pos.compare_cont_refl; discriminate.
Qed.

Lemma not_nan_spec x : is_nan x = false -> Prim2SF x <> S754_nan.
Proof.
  unfold is_nan. rewrite eqb_spec. intros H E. rewrite E in H. discriminate.
Qed.

Lemma nonzero_spec x : (x =? 0) = false -> forall s, Prim2SF x <> S754_zero s.
Proof.
  rewrite eqb_spec. change (Prim2SF 0) with (S754_zero false).
  intros H s E. rewrite E in H. discriminate.
Qed.

(** A finite value is a zero or has a mantissa. *)
Lemma is_finite_cases x :
  is_finite x = true ->
  (exists s, Prim2SF x = S754_zero s) \/
  (exists s m e, Prim2SF x = S754_finite s m e).
Proof.
  unfold is_finite, is_nan, is_infinity.
  rewrite !eqb_spec, abs_spec. change (Prim2SF infinity) with (S754_infinity false).
  destruct (Prim2SF x) as [s|s| |s m e]; cbn.
  - intros _. left. now exists s.
  - destruct s; discriminate.
  - discriminate.
  - intros _. right. now exists s, m, e.
Qed.

(** A finite value minus itself is [+0]. *)
Lemma sub_self x : is_finite x = true -> x - x = 0.
Proof.
  intros H. apply Prim2SF_inj. rewrite sub_spec.
  change (Prim2SF 0) with (S754_zero false).
  destruct (is_finite_cases _ H) as [[s ->] | (s & m & e & ->)].
  - now destruct s.
  - unfold SF64sub, SFsub. rewrite Z.sub_diag. reflexivity.
Qed.

(** [+0] divided by anything but NaN and the zeros is a zero, and the code's
    exponent for that quotient is [-0]. *)
Lemma exponent_of_zero_quotient s :
  is_nan s = false -> (s =? 0) = false ->
  - (0 / s * (0 / s)) / 2 = -0.
Proof.
  intros Hn Hz. apply Prim2SF_inj.
  rewrite div_spec, opp_spec, mul_spec, div_spec.
  change (Prim2SF 0) with (S754_zero false).
  change (Prim2SF (-0)) with (S754_zero true).
  pose proof (not_nan_spec _ Hn) as Hn'. pose proof (nonzero_spec _ Hz) as Hz'.
  destruct (Prim2SF s) as [sg|sg| |sg m e]; cbn.
  - now elim (Hz' sg).
  - now destruct sg.
  - now elim Hn'.
  - now destruct sg.
Qed.

(** NaN goes through every operation of the exponent. *)
Lemma exponent_of_nan_quotient q :
  Prim2SF q = S754_nan -> - (q * q) / 2 = nan.
Proof.
  intros H. apply Prim2SF_inj. rewrite div_spec, opp_spec, mul_spec, H. reflexivity.
Qed.

Lemma quotient_nan x c s :
  is_nan x = true \/ is_nan c = true \/ is_nan s = true ->
  Prim2SF (abs (x - c) / s) = S754_nan.
Proof.
  intros H. rewrite div_spec, abs_spec, sub_spec.
  destruct H as [H | [H | H]]; rewrite (is_nan_spec _ H).
  - reflexivity.
  - now destruct (Prim2SF x).
  - now destruct (SFabs _).
Qed.

End F64_classes.

(** ** When [Setup] is defined, and what it leaves of an earlier [Setup] *)

Section Gaussian1D_setup.
Import Gaussian1D.
Context {T : Type} {D : Double T}.

Lemma read_None (A : Type) (l : list A) (i : Z) :
  read l i = None <-> (i < 0 \/ Z.of_nat (List.length l) <= i)%Z.
Proof.
  unfold read. destruct (Z.ltb_spec i 0) as [Hneg|Hpos].
  - split; [intros _; now left | reflexivity].
  - rewrite nth_error_None. split.
    + intros H. right. lia.
    + intros [H|H]; lia.
Qed.

(** X1.  [Setup] has no defined result exactly when one of its two reads
    falls outside the parameter vector: the offset is negative, or fewer
    than two elements are left from the offset on. *)
Theorem Setup_undefined_iff
    (ZP : T) (params : list T) (offsetIndex : Z) (xc : T) (this : obj T) :
  Setup ZP params offsetIndex xc this = None <->
  (offsetIndex < 0 \/ Z.of_nat (List.length params) < offsetIndex + 2)%Z.
Proof.
  unfold Setup. rewrite Z.add_0_l.
  destruct (read params offsetIndex) as [p0|] eqn:E0;
    [destruct (read params (1 + offsetIndex)) as [p1|] eqn:E1|].
  - split; [discriminate|]. intros H.
    assert (N0 : read params offsetIndex <> None) by congruence.
    assert (N1 : read params (1 + offsetIndex) <> None) by congruence.
    rewrite read_None in N0, N1. lia.
  - split; [|reflexivity]. intros _. apply read_None in E1. lia.
  - split; [|reflexivity]. intros _. apply read_None in E0. lia.
Qed.

(** X2.  A [Setup] overwrites everything an earlier [Setup] stored: set up
    again, the object is what the second [Setup] alone would have made of
    the object the first one started from, whatever the first one was given. *)
Theorem Setup_overrides
    (ZP ZP' : T) (params params' : list T) (offsetIndex offsetIndex' : Z)
    (xc xc' : T) (this g : obj T) :
  Setup ZP params offsetIndex xc this = Some g ->
  Setup ZP' params' offsetIndex' xc' g = Setup ZP' params' offsetIndex' xc' this.
Proof.
  intros H. destruct (Setup_inv _ _ _ _ _ _ H) as (_ & _ & _ & _ & Hn & Hl).
  unfold Setup in *.
  destruct (read params (0 + offsetIndex)); [|discriminate].
  destruct (read params (1 + offsetIndex)); [|discriminate].
  injection H as <-. reflexivity.
Qed.

End Gaussian1D_setup.

(** X2 with the parameters of scenario S1 first and others after. *)
Lemma Setup_overrides_witness :
  @Gaussian1D.Setup float (binary64 SeriesLibm.series_libm) 24%float
    [7%float; 21%float; 2%float] 1 8%float
    (Gaussian1D.Build_obj 2 Gaussian1D.FUNCTION_NAME Gaussian1D.CLASS_SHORT_NAME
       ["mu_0"; "sigma"]%string 16 20 3 100)%float
  = @Gaussian1D.Setup float (binary64 SeriesLibm.series_libm) 24%float
      [7%float; 21%float; 2%float] 1 8%float
      (Gaussian1D.Gaussian1D zeroed_binary64).
Proof.
  apply (@Setup_overrides float (binary64 SeriesLibm.series_libm)
           25%float 24%float [20%float; 3%float] [7%float; 21%float; 2%float]
           0 1 16%float 8%float).
  vm_compute. reflexivity.
Defined.

(* ================================================================== *)
(** * Exact cases of rounding

    A mantissa that is canonical for a format is left alone by the rounding
    to that format, also when it comes shifted to the left with the
    exponent lowered to match. *)

Section Shifts.
Variables prec emax : Z.

Lemma digits2_pos_iter_xO k : forall m,
  Zpos (digits2_pos (Pos.iter xO m k)) = (Zpos (digits2_pos m) + Zpos k)%Z.
Proof.
  induction k as [k IH|k IH|]; intros m; cbn [Pos.iter digits2_pos].
  - rewrite Pos2Z.inj_succ, IH, IH. lia.
  - rewrite IH, IH. lia.
  - lia.
Qed.

Lemma iter_pos_shr_1_iter_xO k : forall m,
  SpecFloat.iter_pos shr_1 k {| shr_m := Zpos (Pos.iter xO m k); shr_r := false; shr_s := false |}
  = {| shr_m := Zpos m; shr_r := false; shr_s := false |}.
Proof.
  induction k as [k IH|k IH|]; intros m; cbn [Pos.iter SpecFloat.iter_pos].
  - cbn [shr_1 orb]. rewrite IH, IH. reflexivity.
  - rewrite IH, IH. reflexivity.
  - reflexivity.
Qed.

Lemma binary_round_aux_canonical s m e :
  canonical_mantissa prec emax m e = true ->
  Z.leb e (emax - prec) = true ->
  binary_round_aux prec emax s (Zpos m) e loc_Exact = S754_finite s m e.
Proof.
  intros Hc Hb. unfold canonical_mantissa in Hc. apply Z.eqb_eq in Hc.
  unfold binary_round_aux, shr_fexp. cbn [Zdigits2 shr_record_of_loc].
  rewrite Hc, Z.sub_diag. cbn [shr loc_of_shr_record round_nearest_even shr_m].
  cbn [Zdigits2 shr_record_of_loc]. rewrite Hc, Z.sub_diag. cbn [shr shr_m].
  rewrite Hb. reflexivity.
Qed.

Lemma binary_round_aux_shifted s m e k :
  canonical_mantissa prec emax m e = true ->
  Z.leb e (emax - prec) = true ->
  binary_round_aux prec emax s (Zpos (Pos.iter xO m k)) (e - Zpos k) loc_Exact
  = S754_finite s m e.
Proof.
  intros Hc Hb. pose proof Hc as Hc'. unfold canonical_mantissa in Hc'. apply Z.eqb_eq in Hc'.
  unfold binary_round_aux, shr_fexp at 1. cbn [Zdigits2 shr_record_of_loc].
  rewrite digits2_pos_iter_xO.
  replace (Z.pos (digits2_pos m) + Z.pos k + (e - Z.pos k))%Z
    with (Z.pos (digits2_pos m) + e)%Z by lia.
  rewrite Hc'.
  replace (e - (e - Z.pos k))%Z with (Z.pos k) by lia.
  cbn [shr]. rewrite iter_pos_shr_1_iter_xO.
  cbn [loc_of_shr_record round_nearest_even shr_m].
  replace (e - Z.pos k + Z.pos k)%Z with e by lia.
  unfold shr_fexp. cbn [Zdigits2 shr_record_of_loc].
  rewrite Hc', Z.sub_diag. cbn [shr shr_m]. rewrite Hb. reflexivity.
Qed.
End Shifts.

Module F64_exact.
Local Open Scope float_scope.

Lemma mul_2_52 m : Pos.mul m 4503599627370496 = Pos.iter xO m 52.
Proof. rewrite Pos.mul_comm. reflexivity. Qed.

(** Multiplying by 1 changes no binary64 value. *)
Lemma mul_one_r x : x * 1 = x.
Proof.
  apply Prim2SF_inj. rewrite mul_spec.
  change (Prim2SF 1) with (S754_finite false 4503599627370496 (-52)).
  pose proof (Prim2SF_valid x) as Hv.
  destruct (Prim2SF x) as [s|s| |s m e]; cbn; try (now destruct s); trivial.
  cbn in Hv. unfold bounded in Hv. apply andb_true_iff in Hv as [Hc Hb].
  rewrite xorb_false_r, mul_2_52.
  change (e + -52)%Z with (e - Z.pos 52)%Z.
  now apply binary_round_aux_shifted.
Qed.

Lemma mul_one_l x : 1 * x = x.
Proof.
  apply Prim2SF_inj. rewrite mul_spec.
  change (Prim2SF 1) with (S754_finite false 4503599627370496 (-52)).
  pose proof (Prim2SF_valid x) as Hv.
  destruct (Prim2SF x) as [s|s| |s m e];
    [now destruct s | now destruct s | reflexivity | ].
  cbn in Hv. unfold bounded in Hv. apply andb_true_iff in Hv as [Hc Hb].
  unfold SF64mul, SFmul. cbn [xorb].
  rewrite Pos.mul_comm, mul_2_52.
  replace (-52 + e)%Z with (e - Z.pos 52)%Z by lia.
  now apply binary_round_aux_shifted.
Qed.

(** A value with a mantissa divided by a value of the same size is 1 or -1. *)
Lemma SF64div_same sa sb m e :
  SF64div (S754_finite sa m e) (S754_finite sb m e)
  = S754_finite (xorb sa sb) 4503599627370496 (-52).
Proof.
  unfold SF64div, SFdiv, SFdiv_core_binary.
  rewrite !Z.sub_diag.
  change (Z.min (fexp FloatOps.prec emax 0) 0) with (-53)%Z.
  change (0 - -53)%Z with 53%Z. cbv iota.
  assert (Hq : Z.div_eucl (Z.shiftl (Z.pos m) 53) (Z.pos m)
               = (9007199254740992, 0)%Z).
  { rewrite Z.shiftl_mul_pow2 by lia. rewrite Z.mul_comm.
    pose proof (Z.div_mul (2 ^ 53) (Z.pos m) ltac:(lia)) as Hd.
    pose proof (Z.mod_mul (2 ^ 53) (Z.pos m) ltac:(lia)) as Hm.
    unfold Z.div in Hd. unfold Z.modulo in Hm.
    destruct (Z.div_eucl (2 ^ 53 * Z.pos m) (Z.pos m)) as [q r].
    cbn [fst snd] in Hd, Hm. now rewrite Hd, Hm. }
  rewrite Hq.
  replace (new_location (Z.pos m) 0) with loc_Exact
    by (unfold new_location, new_location_even, new_location_odd;
        now destruct (Z.even (Z.pos m))).
  now destruct (xorb sa sb).
Qed.

End F64_exact.

(** ** The edges of the profile, in binary64 *)

Section Gaussian1D_edges.
Import Gaussian1D.
Variable m : libm.
Local Open Scope float_scope.

Lemma exponent_of_zero q s : Prim2SF q = S754_zero s -> - (q * q) / 2 = -0.
Proof.
  intros H. apply Prim2SF_inj. rewrite div_spec, opp_spec, mul_spec, H.
  now destruct s.
Qed.

Lemma is_infinity_spec s :
  is_infinity s = true -> exists sg, Prim2SF s = S754_infinity sg.
Proof.
  unfold is_infinity. rewrite eqb_spec, abs_spec.
  change (Prim2SF infinity) with (S754_infinity false).
  destruct (Prim2SF s) as [sg|sg| |sg mm e]; cbn; try discriminate.
  intros _. now exists sg.
Qed.

Lemma finite_over_infinity a s :
  is_finite a = true -> is_infinity s = true ->
  exists sg, Prim2SF (abs a / s) = S754_zero sg.
Proof.
  intros Ha Hs. destruct (is_infinity_spec _ Hs) as [sg Hsg].
  rewrite div_spec, abs_spec, Hsg.
  destruct (F64_classes.is_finite_cases _ Ha) as [[sa ->] | (sa & ma & ea & ->)];
    cbn; now exists sg.
Qed.

(** X7.  A NaN among the argument, the centre and the width reaches [exp]
    as a NaN: the value is [I_0] times what [exp] makes of NaN. *)
Theorem GetValue_nan_reaches_exp (x : float) (this : obj float) :
  is_nan x = true \/ is_nan (x0 this) = true \/ is_nan (sigma this) = true ->
  fst (@GetValue float (binary64 m) x this) = I_0 this * libm_exp m nan.
Proof.
  intros H. rewrite GetValue_binary64.
  rewrite (F64_classes.exponent_of_nan_quotient _ (F64_classes.quotient_nan _ _ _ H)).
  reflexivity.
Qed.

(** X8.  At a finite centre, with a width that is neither zero nor NaN,
    the exponent handed to [exp] is exactly [-0]; with a math library whose
    [exp(-0)] is 1 the value at the centre is [I_0] itself, bit for bit,
    whatever [I_0] is. *)
Theorem GetValue_at_centre (this : obj float) :
  libm_exp m (-0) = 1 ->
  is_finite (x0 this) = true ->
  is_nan (sigma this) = false ->
  (sigma this =? 0) = false ->
  fst (@GetValue float (binary64 m) (x0 this) this) = I_0 this.
Proof.
  intros He Hf Hn Hz. rewrite GetValue_binary64.
  rewrite (F64_classes.sub_self _ Hf). change (abs 0) with 0.
  rewrite (F64_classes.exponent_of_zero_quotient _ Hn Hz), He.
  apply F64_exact.mul_one_r.
Qed.

(** X9.  With an infinite width the profile is flat: wherever the distance
    to the centre is finite, the exponent handed to [exp] is [-0], and with
    a math library whose [exp(-0)] is 1 the value is [I_0] itself. *)
Theorem GetValue_infinite_sigma (x : float) (this : obj float) :
  libm_exp m (-0) = 1 ->
  is_finite (x - x0 this) = true ->
  is_infinity (sigma this) = true ->
  fst (@GetValue float (binary64 m) x this) = I_0 this.
Proof.
  intros He Hf Hs. rewrite GetValue_binary64.
  destruct (finite_over_infinity _ _ Hf Hs) as [sg Hq].
  rewrite (exponent_of_zero _ _ Hq), He.
  apply F64_exact.mul_one_r.
Qed.

(** X5.  One [sigma] from the centre: at an argument whose distance from
    the centre, as the code computes it, is [fabs(sigma)], with [sigma]
    finite and not zero, the scaled distance is exactly 1 or -1 and the
    exponent handed to [exp] is exactly [-0.5], so the value is
    [I_0 * exp(-0.5)]. *)
Theorem GetValue_one_sigma_away (x : float) (this : obj float) :
  abs (x - x0 this) = abs (sigma this) ->
  is_finite (sigma this) = true ->
  (sigma this =? 0) = false ->
  fst (@GetValue float (binary64 m) x this) = I_0 this * libm_exp m (-0.5).
Proof.
  intros Habs Hf Hz. rewrite GetValue_binary64, Habs.
  do 2 f_equal. apply Prim2SF_inj.
  rewrite div_spec, opp_spec, mul_spec, div_spec, abs_spec.
  destruct (F64_classes.is_finite_cases _ Hf) as [[sg Hs] | (sg & mm & e & Hs)].
  - now elim (F64_classes.nonzero_spec _ Hz sg).
  - rewrite Hs. cbn [SFabs]. rewrite F64_exact.SF64div_same.
    now destruct sg.
Qed.

End Gaussian1D_edges.

(** X7 with a NaN for the width. *)
Lemma GetValue_nan_reaches_exp_witness :
  fst (@Gaussian1D.GetValue float (binary64 SeriesLibm.series_libm) 19%float
         (Gaussian1D.Build_obj 2 "" "" [] 16 20 nan 100)%float)
  = (100 * libm_exp SeriesLibm.series_libm nan)%float.
Proof.
  apply (GetValue_nan_reaches_exp SeriesLibm.series_libm 19%float
           (Gaussian1D.Build_obj 2 "" "" [] 16 20 nan 100)%float).
  right. right. reflexivity.
Defined.

(** X8 for the Gaussian of scenario S1. *)
Lemma GetValue_at_centre_witness :
  fst (@Gaussian1D.GetValue float (binary64 SeriesLibm.series_libm) 16%float
         (Gaussian1D.Build_obj 2 "" "" [] 16 20 3 100)%float)
  = 100%float.
Proof.
  apply (GetValue_at_centre SeriesLibm.series_libm
           (Gaussian1D.Build_obj 2 "" "" [] 16 20 3 100)%float);
    reflexivity.
Defined.

(** X9 at the pixel 19. *)
Lemma GetValue_infinite_sigma_witness :
  fst (@Gaussian1D.GetValue float (binary64 SeriesLibm.series_libm) 19%float
         (Gaussian1D.Build_obj 2 "" "" [] 16 20 infinity 100)%float)
  = 100%float.
Proof.
  apply (GetValue_infinite_sigma SeriesLibm.series_libm 19%float
           (Gaussian1D.Build_obj 2 "" "" [] 16 20 infinity 100)%float);
    reflexivity.
Defined.

(** X5 for the Gaussian of scenario S1 at the pixels 19 and 13. *)
Lemma GetValue_one_sigma_away_witness :
  fst (@Gaussian1D.GetValue float (binary64 SeriesLibm.series_libm) 13%float
         (Gaussian1D.Build_obj 2 "" "" [] 16 20 3 100)%float)
  = (100 * libm_exp SeriesLibm.series_libm (-0.5))%float.
Proof.
  apply (GetValue_one_sigma_away SeriesLibm.series_libm 13%float
           (Gaussian1D.Build_obj 2 "" "" [] 16 20 3 100)%float);
    reflexivity.
Defined.

(** ** Mirror images that rounding breaks *)

(** C9 as the implicit claim has it fails in binary64, where [x0 + d] and
    [x0 - d] are rounded before [GetValue] sees them.  With the Gaussian of
    scenario S1 (centre 16, [sigma = 3]) and [d = 1.1] the two sums are
    17.100000000000001 and 14.9, and with the series library the two values
    differ in their last place.  With centre 1, [sigma = 2^-53],
    [mu_0 = ZP = 25] and [d = 1.25 * 2^-53] the sums are [1 + 2^-52] and
    [1 - 2^-53], the exponents handed to [exp] are -2 and -0.5, and the two
    values differ for every math library whose [pow(10, 0)] is 1 and whose
    [exp] tells -2 from -0.5. *)
Lemma gaussian1d_symmetry_counterexample :
  match @Gaussian1D.Setup float (binary64 SeriesLibm.series_libm) 25%float
          [20%float; 3%float] 0 16%float zeroed_binary64 with
  | Some g =>
      fst (@Gaussian1D.GetValue float (binary64 SeriesLibm.series_libm)
             (16 + 1.1)%float g) = 93.498740327045297%float /\
      fst (@Gaussian1D.GetValue float (binary64 SeriesLibm.series_libm)
             (16 - 1.1)%float g) = 93.498740327045311%float /\
      fst (@Gaussian1D.GetValue float (binary64 SeriesLibm.series_libm)
             (16 + 1.1)%float g)
      <> fst (@Gaussian1D.GetValue float (binary64 SeriesLibm.series_libm)
                (16 - 1.1)%float g)
  | None => False
  end /\
  ~ (exists m : libm,
       libm_pow m 10%float 0%float = 1%float /\
       libm_exp m (-2)%float <> libm_exp m (-0.5)%float /\
       match @Gaussian1D.Setup float (binary64 m) 25%float
               [25%float; 0x1p-53%float] 0 1%float zeroed_binary64 with
       | Some g =>
           fst (@Gaussian1D.GetValue float (binary64 m) (1 + 0x1.4p-53)%float g)
           = fst (@Gaussian1D.GetValue float (binary64 m) (1 - 0x1.4p-53)%float g)
       | None => True
       end).
Proof.
  split.
  - vm_compute. repeat split. intros H.
    apply (f_equal Prim2SF) in H. vm_compute in H. discriminate.
  - intros (m & Hpow & Hexp & H).
    change (libm_pow m 10 0 * libm_exp m (-2)
            = libm_pow m 10 0 * libm_exp m (-0.5))%float in H.
    rewrite Hpow, !F64_exact.mul_one_l in H. contradiction.
Qed.

(* ================================================================== *)
(** * Further properties of the image I/O *)

(** The first status in a list that is not 0, and 0 if there is none. *)
Fixpoint first_nonzero (statuses : list Z) : Z :=
  match statuses with
  | [] => 0
  | s :: rest => if (s =? 0)%Z then first_nonzero rest else s
  end.

Section ImageIO_failures.
Import ImageIO.
Local Open Scope Z_scope.

Ltac passed_on :=
  rewrite ?fits_create_img_inherits, ?write_comments_inherits,
    ?fits_write_date_inherits, ?fits_write_pix_inherits
    by (assumption || discriminate);
  rewrite if_problems_exits by (assumption || discriminate).

Lemma first_nonzero_cons_zero s rest :
  s = 0 -> first_nonzero (s :: rest) = first_nonzero rest.
Proof. intros ->. reflexivity. Qed.

Lemma first_nonzero_cons_nonzero s rest :
  s <> 0 -> first_nonzero (s :: rest) = s.
Proof. intros H. cbn. now destruct (Z.eqb_spec s 0). Qed.

Lemma first_nonzero_app_nonzero l l' :
  first_nonzero l <> 0 -> first_nonzero (l ++ l') = first_nonzero l.
Proof.
  induction l as [|s l IH]; cbn; [contradiction|].
  destruct (Z.eqb_spec s 0); auto.
Qed.

Lemma first_nonzero_app_zero l l' :
  first_nonzero l = 0 -> first_nonzero (l ++ l') = first_nonzero l'.
Proof.
  induction l as [|s l IH]; cbn; [reflexivity|].
  destruct (Z.eqb_spec s 0); [auto | contradiction].
Qed.

(** X10.  [ReadImageAsVector] exits with the status of the first thing that
    fails (the file missing counts as cfitsio's [FILE_NOT_OPENED], 104, and
    later failures do not matter), and returns the pixels and the two axes
    only if nothing fails; it never returns a null pointer. *)
Theorem ReadImageAsVector_first_failure
    (filename : string) (verbose : bool) (d : disk) (flt : faults) :
  (forall f, d filename = Some f -> well_formed f) ->
  ReadImageAsVector filename verbose d flt
  = let status :=
      first_nonzero
        [match d filename with
         | None => FILE_NOT_OPENED
         | Some _ => flt open_file
         end;
         flt read_keys_lng; flt read_pix; flt close_file] in
    match d filename with
    | Some f =>
        if status =? 0
        then Returns (map to_double (data f), NAXIS1 f, NAXIS2 f)
        else Exits status
    | None => Exits status
    end.
Proof.
  intros Hwf. cbv zeta.
  destruct (d filename) as [f|] eqn:Hd.
  2:{ unfold ReadImageAsVector, fits_open_file. rewrite Hd. reflexivity. }
  specialize (Hwf f eq_refl).
  destruct (Z.eq_dec (flt open_file) 0) as [Ho|Ho].
  2:{ rewrite first_nonzero_cons_nonzero by assumption.
      destruct (Z.eqb_spec (flt open_file) 0); [contradiction|].
      unfold ReadImageAsVector, fits_open_file. rewrite Hd. cbn [Z.eqb].
      destruct (Z.eqb_spec (flt open_file) 0); [contradiction|].
      now rewrite if_problems_exits. }
  rewrite first_nonzero_cons_zero by assumption.
  destruct (Z.eq_dec (flt read_keys_lng) 0) as [Hk|Hk].
  2:{ rewrite first_nonzero_cons_nonzero by assumption.
      destruct (Z.eqb_spec (flt read_keys_lng) 0); [contradiction|].
      unfold ReadImageAsVector, fits_open_file, fits_read_keys_lng.
      rewrite Hd, Ho. cbn [Z.eqb if_problems bind].
      destruct (Z.eqb_spec (flt read_keys_lng) 0); [contradiction|].
      now rewrite if_problems_exits. }
  rewrite first_nonzero_cons_zero by assumption.
  destruct Hwf as (H1 & H2 & H3 & Hlen).
  assert (Hc1 : int32 (NAXIS1 f) = NAXIS1 f) by (apply int32_small; nia).
  assert (Hc2 : int32 (NAXIS2 f) = NAXIS2 f) by (apply int32_small; nia).
  assert (Hn : int32 (NAXIS1 f * NAXIS2 f) = NAXIS1 f * NAXIS2 f)
    by (apply int32_small; nia).
  destruct (Z.eq_dec (flt read_pix) 0) as [Hp|Hp].
  2:{ rewrite first_nonzero_cons_nonzero by assumption.
      destruct (Z.eqb_spec (flt read_pix) 0); [contradiction|].
      unfold ReadImageAsVector, fits_open_file, fits_read_keys_lng, fits_read_pix.
      rewrite Hd, Ho. cbn [Z.eqb if_problems bind]. rewrite Hk.
      cbn [Z.eqb if_problems bind fst snd]. rewrite Hc1, Hc2, Hn.
      destruct (Z.ltb_spec (NAXIS1 f * NAXIS2 f) 0) as [Hneg|_]; [nia|].
      destruct (Z.ltb_spec (Z.of_nat (List.length (data f))) (NAXIS1 f * NAXIS2 f))
        as [Hshort|_]; [lia|].
      cbn [orb].
      destruct (Z.eqb_spec (flt read_pix) 0); [contradiction|].
      now rewrite if_problems_exits. }
  rewrite first_nonzero_cons_zero by assumption.
  destruct (Z.eq_dec (flt close_file) 0) as [Hc|Hc].
  - rewrite first_nonzero_cons_zero by assumption. cbn [first_nonzero Z.eqb].
    apply ReadImageAsVector_reads; repeat split; assumption.
  - rewrite first_nonzero_cons_nonzero by assumption.
    destruct (Z.eqb_spec (flt close_file) 0); [contradiction|].
    unfold ReadImageAsVector, fits_open_file, fits_read_keys_lng, fits_read_pix,
      fits_close_file.
    rewrite Hd, Ho. cbn [Z.eqb if_problems bind]. rewrite Hk.
    cbn [Z.eqb if_problems bind fst snd]. rewrite Hc1, Hc2, Hn.
    destruct (Z.ltb_spec (NAXIS1 f * NAXIS2 f) 0) as [Hneg|_]; [nia|].
    destruct (Z.ltb_spec (Z.of_nat (List.length (data f))) (NAXIS1 f * NAXIS2 f))
      as [Hshort|_]; [lia|].
    cbn [orb]. rewrite Hp. cbn [Z.eqb if_problems bind].
    now rewrite if_problems_exits.
Qed.

(** X10 on the small image, with the reading of the pixels failing with
    status 108 and the closing with 110: the exit status is 108. *)
Lemma ReadImageAsVector_first_failure_witness :
  ReadImageAsVector "image.fits" false
    (store empty_disk "image.fits" image_3x2)
    (fun r => match r with read_pix => 108 | close_file => 110 | _ => 0 end)
  = Exits 108.
Proof.
  apply (ReadImageAsVector_first_failure "image.fits" false
           (store empty_disk "image.fits" image_3x2)
           (fun r => match r with read_pix => 108 | close_file => 110 | _ => 0 end)).
  intros f Hf. cbn in Hf. injection Hf as <-.
  unfold well_formed. cbn. lia.
Defined.

(** The statuses of the comment loop, in the order of the calls. *)
Definition comment_statuses (flt : faults) (i n : nat) : list Z :=
  map (fun k => flt (write_comment k)) (seq i n).

(** The loop ends with the first status that is not 0, and if there is none
    with every comment in the header. *)
Lemma write_comments_status comments :
  forall f i flt,
    exists f',
      write_comments (Some f) i comments flt 0
      = (Some f', first_nonzero (comment_statuses flt i (List.length comments))) /\
      (first_nonzero (comment_statuses flt i (List.length comments)) = 0 ->
       f' = {| BITPIX := BITPIX f; NAXIS1 := NAXIS1 f; NAXIS2 := NAXIS2 f;
               COMMENT := COMMENT f ++ comments; DATE := DATE f;
               data := data f |}).
Proof.
  induction comments as [|c rest IH]; intros f i flt.
  - exists f. split; [reflexivity|]. intros _. rewrite app_nil_r. now destruct f.
  - cbn [write_comments List.length]. unfold comment_statuses.
    cbn [seq map first_nonzero]. unfold fits_write_comment. cbn [Z.eqb].
    destruct (Z.eqb_spec (flt (write_comment i)) 0) as [H0|H0].
    + destruct (IH {| BITPIX := BITPIX f; NAXIS1 := NAXIS1 f; NAXIS2 := NAXIS2 f;
                      COMMENT := COMMENT f ++ [c]; DATE := DATE f;
                      data := data f |} (S i) flt) as (f' & Hrun & Hok).
      exists f'. split; [exact Hrun|].
      intros Hz. rewrite (Hok Hz). cbn. now rewrite <- app_assoc.
    + exists f. rewrite write_comments_inherits by assumption.
      split; [reflexivity | contradiction].
Qed.

(** What [SaveVectorAsImage] comes to, decided by the first status that is
    not 0. *)
Lemma SaveVectorAsImage_decided
    (pixelVector : list float) (filename : string) (nColumns nRows : Z)
    (comments : list string) (d : disk) (flt : faults) :
  int32 (nColumns * nRows) <= Z.of_nat (List.length pixelVector) ->
  SaveVectorAsImage pixelVector filename nColumns nRows comments d flt
  = let status :=
      first_nonzero
        ([flt create_file; flt create_img]
         ++ comment_statuses flt 0 (List.length comments)
         ++ [flt write_date; flt write_pix; flt close_file]) in
    if status =? 0
    then Returns
           (store d filename
              {| BITPIX := FLOAT_IMG; NAXIS1 := nColumns; NAXIS2 := nRows;
                 COMMENT := comments; DATE := true;
                 data := map to_float32
                           (firstn (Z.to_nat (int32 (nColumns * nRows)))
                              pixelVector) |})
    else Exits status.
Proof.
  intros Hlen. cbv zeta. cbn [app].
  unfold SaveVectorAsImage, fits_create_file. cbn [Z.eqb].
  destruct (Z.eqb_spec (flt create_file) 0) as [Hcf|Hcf].
  2:{ rewrite first_nonzero_cons_nonzero by assumption.
      destruct (Z.eqb_spec (flt create_file) 0); [contradiction|].
      now passed_on. }
  rewrite first_nonzero_cons_zero by assumption.
  unfold fits_create_img. cbn [Z.eqb].
  destruct (Z.eqb_spec (flt create_img) 0) as [Hci|Hci].
  2:{ rewrite first_nonzero_cons_nonzero by assumption.
      destruct (Z.eqb_spec (flt create_img) 0); [contradiction|].
      now passed_on. }
  rewrite first_nonzero_cons_zero by assumption.
  match goal with
  | |- context [write_comments (Some ?img) 0 comments flt 0] =>
      destruct (write_comments_status comments img 0 flt) as (f1 & -> & Hok)
  end.
  destruct (Z.eq_dec (first_nonzero (comment_statuses flt 0 (List.length comments))) 0)
    as [Hcom|Hcom].
  2:{ rewrite first_nonzero_app_nonzero by assumption.
      destruct (Z.eqb_spec
                  (first_nonzero (comment_statuses flt 0 (List.length comments))) 0);
        [contradiction|].
      now passed_on. }
  rewrite first_nonzero_app_zero by assumption.
  rewrite Hcom, (Hok Hcom). cbn [app fst snd BITPIX NAXIS1 NAXIS2 COMMENT DATE data].
  unfold fits_write_date. cbn [Z.eqb].
  destruct (Z.eqb_spec (flt write_date) 0) as [Hwd|Hwd].
  2:{ rewrite first_nonzero_cons_nonzero by assumption.
      destruct (Z.eqb_spec (flt write_date) 0); [contradiction|].
      now passed_on. }
  rewrite first_nonzero_cons_zero by assumption.
  unfold fits_write_pix. cbn [Z.eqb].
  destruct (Z.eqb_spec (flt write_pix) 0) as [Hwp|Hwp].
  2:{ rewrite first_nonzero_cons_nonzero by assumption.
      destruct (Z.eqb_spec (flt write_pix) 0); [contradiction|].
      now passed_on. }
  rewrite first_nonzero_cons_zero by assumption.
  destruct (Z.ltb_spec (Z.of_nat (List.length pixelVector))
              (int32 (nColumns * nRows))) as [Hshort|_]; [lia|].
  cbn [if_problems Z.eqb bind fits_close_file BITPIX NAXIS1 NAXIS2 COMMENT DATE data].
  destruct (Z.eqb_spec (flt close_file) 0) as [Hc|Hc].
  - rewrite first_nonzero_cons_zero by assumption. cbn [first_nonzero Z.eqb].
    rewrite Hc. reflexivity.
  - rewrite first_nonzero_cons_nonzero by assumption.
    destruct (Z.eqb_spec (flt close_file) 0); [contradiction|].
    now rewrite if_problems_exits.
Qed.

(** X11.  [SaveVectorAsImage] tests the status only after writing the pixels
    and after closing, yet it exits with the status of the first call that
    failed, in the order: creating the file, creating the image, the
    comments one by one, the date, the pixels, the closing.  If none fails
    it stores a single-precision image with the comments in their order and
    the date. *)
Theorem SaveVectorAsImage_first_failure
    (pixelVector : list float) (filename : string) (nColumns nRows : Z)
    (comments : list string) (d : disk) (flt : faults) :
  int32 (nColumns * nRows) <= Z.of_nat (List.length pixelVector) ->
  SaveVectorAsImage pixelVector filename nColumns nRows comments d flt
  = let status :=
      first_nonzero
        ([flt create_file; flt create_img]
         ++ comment_statuses flt 0 (List.length comments)
         ++ [flt write_date; flt write_pix; flt close_file]) in
    if status =? 0
    then Returns
           (store d filename
              {| BITPIX := FLOAT_IMG; NAXIS1 := nColumns; NAXIS2 := nRows;
                 COMMENT := comments; DATE := true;
                 data := map to_float32
                           (firstn (Z.to_nat (int32 (nColumns * nRows)))
                              pixelVector) |})
    else Exits status.
Proof.
  intros Hlen. now apply SaveVectorAsImage_decided.
Qed.

(** X11 on the file of the unit tests that cannot be created (cfitsio's
    [FILE_NOT_CREATED], 105), with two comments. *)
Lemma SaveVectorAsImage_first_failure_witness :
  SaveVectorAsImage tinyImage "/arglebargle.fits" 3 3
    ["Here is a comment"; "this is a second comment"]%string empty_disk
    (fun r => match r with create_file => 105 | _ => 0 end)
  = Exits 105.
Proof.
  apply (SaveVectorAsImage_first_failure tinyImage "/arglebargle.fits" 3 3
           ["Here is a comment"; "this is a second comment"]%string empty_disk
           (fun r => match r with create_file => 105 | _ => 0 end)).
  vm_compute. discriminate.
Defined.

(** X12.  Whenever [ReadImageAsVector] returns, the file is there, the two
    sizes are its NAXIS1 and NAXIS2 as [int]s, and the array holds exactly
    [nColumns * nRows] pixels (the product taken as an [int]), the first so
    many of the file. *)
Theorem ReadImageAsVector_returns
    (filename : string) (verbose : bool) (d : disk) (flt : faults)
    (imageVector : list float) (nColumns nRows : Z) :
  ReadImageAsVector filename verbose d flt
  = Returns (imageVector, nColumns, nRows) ->
  exists f,
    d filename = Some f /\
    nColumns = int32 (NAXIS1 f) /\ nRows = int32 (NAXIS2 f) /\
    Z.of_nat (List.length imageVector) = int32 (nColumns * nRows) /\
    imageVector
    = map to_double (firstn (List.length imageVector) (data f)).
Proof.
  unfold ReadImageAsVector, fits_open_file. cbn [Z.eqb].
  destruct (d filename) as [f|]; [|cbn; discriminate].
  destruct (Z.eqb_spec (flt open_file) 0) as [Ho|Ho];
    [|rewrite if_problems_exits by assumption; discriminate].
  cbn [if_problems Z.eqb bind fits_read_keys_lng].
  destruct (Z.eqb_spec (flt read_keys_lng) 0) as [Hk|Hk];
    [|rewrite if_problems_exits by assumption; discriminate].
  cbn [if_problems Z.eqb bind fits_read_pix fst snd].
  set (n := int32 (int32 (NAXIS1 f) * int32 (NAXIS2 f))).
  destruct (Z.ltb_spec n 0) as [Hneg|Hpos]; [cbn; discriminate|].
  destruct (Z.ltb_spec (Z.of_nat (List.length (data f))) n) as [Hshort|Hfit];
    [cbn; discriminate|].
  cbn [orb].
  destruct (Z.eqb_spec (flt read_pix) 0) as [Hp|Hp];
    [|rewrite if_problems_exits by assumption; discriminate].
  cbn [if_problems Z.eqb bind fits_close_file].
  destruct (if_problems_cases (flt close_file)) as [[Hc ->]|[Hc ->]];
    cbn [bind]; [|discriminate].
  intros [= <- <- <-]. exists f.
  assert (Hl : List.length (map to_double (firstn (Z.to_nat n) (data f)))
               = Z.to_nat n)
    by (rewrite length_map, firstn_length_le; lia).
  repeat split.
  - rewrite Hl. fold n. lia.
  - rewrite Hl. reflexivity.
Qed.

(** X12 on the small image. *)
Lemma ReadImageAsVector_returns_witness :
  exists f,
    store empty_disk "image.fits" image_3x2 "image.fits"%string = Some f /\
    3 = int32 (NAXIS1 f) /\ 2 = int32 (NAXIS2 f) /\
    Z.of_nat (List.length (map to_double (data image_3x2))) = int32 (3 * 2) /\
    map to_double (data image_3x2)
    = map to_double
        (firstn (List.length (map to_double (data image_3x2))) (data f)).
Proof.
  apply (ReadImageAsVector_returns "image.fits" false
           (store empty_disk "image.fits" image_3x2) no_faults
           (map to_double (data image_3x2)) 3 2).
  reflexivity.
Defined.

(** X13.  [SaveVectorAsImage] touches one file only: when it returns, the
    file of the given name is the new image, whatever was there before, and
    every other file is as it was. *)
Theorem SaveVectorAsImage_frame
    (pixelVector : list float) (filename other : string) (nColumns nRows : Z)
    (comments : list string) (d d' : disk) (flt : faults) :
  int32 (nColumns * nRows) <= Z.of_nat (List.length pixelVector) ->
  SaveVectorAsImage pixelVector filename nColumns nRows comments d flt
  = Returns d' ->
  other <> filename ->
  d' other = d other /\
  d' filename
  = Some {| BITPIX := FLOAT_IMG; NAXIS1 := nColumns; NAXIS2 := nRows;
            COMMENT := comments; DATE := true;
            data := map to_float32
                      (firstn (Z.to_nat (int32 (nColumns * nRows)))
                         pixelVector) |}.
Proof.
  intros Hlen Hsave Hother.
  rewrite SaveVectorAsImage_decided in Hsave by assumption. cbv zeta in Hsave.
  destruct (_ =? 0) in Hsave; [|discriminate].
  injection Hsave as <-. split.
  - unfold store. apply String.eqb_neq in Hother. now rewrite Hother.
  - apply store_same.
Qed.

(** X13 with [tinyImage] saved over an older file of the same name, next to
    the small image. *)
Lemma SaveVectorAsImage_frame_witness :
  store (store (store empty_disk "image.fits" image_3x2) "new.fits" image_3x2)
    "new.fits"
    {| BITPIX := FLOAT_IMG; NAXIS1 := 3; NAXIS2 := 3; COMMENT := []; DATE := true;
       data := map to_float32 (firstn (Z.to_nat (int32 (3 * 3))) tinyImage) |}
    "image.fits"%string
  = store (store empty_disk "image.fits" image_3x2) "new.fits" image_3x2
      "image.fits"%string /\
  store (store (store empty_disk "image.fits" image_3x2) "new.fits" image_3x2)
    "new.fits"
    {| BITPIX := FLOAT_IMG; NAXIS1 := 3; NAXIS2 := 3; COMMENT := []; DATE := true;
       data := map to_float32 (firstn (Z.to_nat (int32 (3 * 3))) tinyImage) |}
    "new.fits"%string
  = Some {| BITPIX := FLOAT_IMG; NAXIS1 := 3; NAXIS2 := 3; COMMENT := [];
            DATE := true;
            data := map to_float32
                      (firstn (Z.to_nat (int32 (3 * 3))) tinyImage) |}.
Proof.
  apply (SaveVectorAsImage_frame tinyImage "new.fits" "image.fits" 3 3 []
           (store (store empty_disk "image.fits" image_3x2) "new.fits" image_3x2)
           _ no_faults).
  - vm_compute. discriminate.
  - reflexivity.
  - discriminate.
Defined.

Lemma fits_write_pix_app fptr n (array extra : list float) flt status :
  Z.of_nat (List.length array) = n ->
  fits_write_pix fptr n (array ++ extra) flt status
  = fits_write_pix fptr n array flt status.
Proof.
  intros Hn. unfold fits_write_pix.
  destruct (status =? 0); [|reflexivity].
  destruct fptr as [f|]; [|reflexivity].
  destruct (flt write_pix =? 0); [|reflexivity].
  destruct (Z.ltb_spec (Z.of_nat (List.length (array ++ extra))) n) as [H|_];
    [rewrite length_app in H; lia|].
  destruct (Z.ltb_spec (Z.of_nat (List.length array)) n) as [H|_]; [lia|].
  rewrite <- Hn, Nat2Z.id, firstn_app, Nat.sub_diag, firstn_all. cbn [firstn].
  now rewrite app_nil_r.
Qed.

(** X14.  [SaveVectorAsImage] reads [nColumns * nRows] pixels of the array
    and no more: whatever follows them in memory changes nothing, in the
    file written or in the way the call ends. *)
Theorem SaveVectorAsImage_ignores_the_rest
    (pixelVector extra : list float) (filename : string) (nColumns nRows : Z)
    (comments : list string) (d : disk) (flt : faults) :
  Z.of_nat (List.length pixelVector) = int32 (nColumns * nRows) ->
  SaveVectorAsImage (pixelVector ++ extra) filename nColumns nRows comments d flt
  = SaveVectorAsImage pixelVector filename nColumns nRows comments d flt.
Proof.
  intros Hn. unfold SaveVectorAsImage.
  destruct (fits_create_file flt 0) as [p0 s0].
  destruct (fits_create_img p0 FLOAT_IMG (nColumns, nRows) flt s0) as [p1 s1].
  destruct (write_comments p1 0 comments flt s1) as [p2 s2].
  destruct (fits_write_date p2 flt s2) as [p3 s3].
  now rewrite fits_write_pix_app.
Qed.

(** X14 with [tinyImage] followed by two more values. *)
Lemma SaveVectorAsImage_ignores_the_rest_witness :
  SaveVectorAsImage (tinyImage ++ [10; 11]%float) "t.fits" 3 3 [] empty_disk
    no_faults
  = SaveVectorAsImage tinyImage "t.fits" 3 3 [] empty_disk no_faults.
Proof.
  apply (SaveVectorAsImage_ignores_the_rest tinyImage [10; 11]%float "t.fits"
           3 3 [] empty_disk no_faults).
  reflexivity.
Defined.

End ImageIO_failures.

(** ** Copying a single-precision image *)

Section ImageIO_copy.
Import ImageIO.
Local Open Scope Z_scope.

(** A single-precision value read as a double and stored again in single
    precision is the value it was. *)
Lemma to_float32_to_double (v : spec_float) :
  SpecFloat.valid_binary 24 128 v = true -> to_float32 (to_double v) = v.
Proof.
  unfold to_float32, to_double.
  destruct v as [s|s| |s m e]; cbn [SFround SpecFloat.valid_binary];
    try (intros _; rewrite Prim2SF_SF2Prim by reflexivity; reflexivity).
  intros Hv. unfold bounded in Hv. apply andb_true_iff in Hv as [Hc Hb].
  pose proof Hc as Hc'. unfold canonical_mantissa in Hc'. apply Z.eqb_eq in Hc'.
  pose proof Hb as Hb'. apply Z.leb_le in Hb'.
  set (dg := Z.pos (digits2_pos m)) in *.
  assert (Hdg : 0 < dg) by (unfold dg; lia).
  set (e' := fexp 53 1024 (dg + e)).
  assert (He' : e' < e /\ e' <= 1024 - 53).
  { unfold e'. unfold fexp, emin in *. lia. }
  unfold binary_round. fold dg. fold e'. unfold shl_align.
  destruct (e' - e) as [|k|k] eqn:Hk; try lia.
  assert (Hshift : e' = e - Z.pos k) by lia.
  assert (Hc64 : canonical_mantissa 53 1024 (Pos.iter xO m k) e' = true).
  { unfold canonical_mantissa. rewrite digits2_pos_iter_xO. apply Z.eqb_eq.
    fold dg. replace (dg + Z.pos k + e') with (dg + e) by lia. reflexivity. }
  assert (Hb64 : (e' <=? 1024 - 53) = true) by (apply Z.leb_le; lia).
  rewrite (binary_round_aux_canonical 53 1024 s _ _ Hc64 Hb64).
  rewrite Prim2SF_SF2Prim
    by (cbn [SpecFloat.valid_binary]; unfold bounded;
        apply andb_true_iff; split; assumption).
  cbn [SFround]. unfold binary_round. rewrite digits2_pos_iter_xO. fold dg.
  replace (dg + Z.pos k + e') with (dg + e) by lia.
  rewrite Hc'. unfold shl_align.
  replace (e - e') with (Z.pos k) by lia.
  rewrite Hshift. now apply binary_round_aux_shifted.
Qed.

(** X15.  An image of valid single-precision pixels that is read with
    [ReadImageAsVector] and saved again with [SaveVectorAsImage] keeps its
    size and every pixel, bit for bit: the passage through doubles loses
    nothing.  Read back, the copy gives the very array that was saved. *)
Theorem read_then_save_copies
    (filename copy : string) (verbose : bool) (comments : list string)
    (d : disk) (flt : faults) (f : fits_image) :
  d filename = Some f ->
  well_formed f ->
  Forall (fun v => SpecFloat.valid_binary 24 128 v = true) (data f) ->
  (forall r, flt r = 0) ->
  exists imageVector nColumns nRows d',
    ReadImageAsVector filename verbose d flt
    = Returns (imageVector, nColumns, nRows) /\
    SaveVectorAsImage imageVector copy nColumns nRows comments d flt
    = Returns d' /\
    d' copy
    = Some {| BITPIX := FLOAT_IMG; NAXIS1 := NAXIS1 f; NAXIS2 := NAXIS2 f;
              COMMENT := comments; DATE := true; data := data f |} /\
    ReadImageAsVector copy verbose d' flt
    = Returns (imageVector, nColumns, nRows).
Proof.
  intros Hd Hwf Hvalid Hflt.
  assert (Hdata : map to_float32 (map to_double (data f)) = data f).
  { rewrite map_map. clear - Hvalid.
    induction Hvalid as [|v l Hv _ IH]; cbn; [reflexivity|].
    now rewrite to_float32_to_double, IH. }
  exists (map to_double (data f)), (NAXIS1 f), (NAXIS2 f).
  eexists.
  split; [apply ReadImageAsVector_reads; auto|].
  pose proof Hwf as (H1 & H2 & H3 & Hlen).
  split;
    [apply SaveVectorAsImage_writes; rewrite ?length_map; assumption|].
  rewrite Hdata. split; [apply store_same|].
  rewrite (ReadImageAsVector_reads copy verbose _ flt _ (store_same _ _ _))
    by (try apply Hflt; repeat split; assumption).
  reflexivity.
Qed.

(** X15 on the small image. *)
Lemma read_then_save_copies_witness :
  exists imageVector nColumns nRows d',
    ReadImageAsVector "image.fits" false
      (store empty_disk "image.fits" image_3x2) no_faults
    = Returns (imageVector, nColumns, nRows) /\
    SaveVectorAsImage imageVector "copy.fits" nColumns nRows []
      (store empty_disk "image.fits" image_3x2) no_faults
    = Returns d' /\
    d' "copy.fits"%string
    = Some {| BITPIX := FLOAT_IMG; NAXIS1 := NAXIS1 image_3x2;
              NAXIS2 := NAXIS2 image_3x2;
              COMMENT := []; DATE := true; data := data image_3x2 |} /\
    ReadImageAsVector "copy.fits" false d' no_faults
    = Returns (imageVector, nColumns, nRows).
Proof.
  apply (read_then_save_copies "image.fits" "copy.fits" false []
           (store empty_disk "image.fits" image_3x2) no_faults image_3x2).
  - reflexivity.
  - unfold well_formed. cbn. lia.
  - repeat constructor.
  - reflexivity.
Defined.

End ImageIO_copy.

(* ================================================================== *)
(** * The life of a Gaussian *)

Section Gaussian1D_runs.
Import Gaussian1D.
Context {T : Type} {D : Double T}.

(** The calls of a run that are [Setup]s. *)
Definition is_Setup (c : call T) : bool :=
  match c with
  | Call_Setup _ _ _ => true
  | Call_GetValue _ => false
  end.

Lemma step_keeps_declaration (c : call T) (p q : process T) :
  step c p = Some q ->
  nParams (component q) = nParams (component p) /\
  parameterLabels (component q) = parameterLabels (component p) /\
  shortFunctionName (component q) = shortFunctionName (component p).
Proof.
  destruct c as [params offsetIndex xc|x]; cbn.
  - unfold Setup.
    destruct (read params (0 + offsetIndex)); [|discriminate].
    destruct (read params (1 + offsetIndex)); [|discriminate].
    intros [= <-]. cbn. repeat split.
  - intros [= <-]. cbn. repeat split.
Qed.

(** X16.  What the constructor declares stays: after any calls of [Setup]
    and [GetValue] on a constructed Gaussian the arity is 2, there are as
    many labels as parameters, "mu_0" then "sigma", and the short name is
    "Gaussian-1D". *)
Theorem declaration_is_kept
    (configured : option T) (raw : obj T) (calls : list (call T))
    (p : process T) :
  run calls (construct configured raw) = Some p ->
  nParams (component p) = 2%Z /\
  parameterLabels (component p) = ["mu_0"; "sigma"]%string /\
  Z.of_nat (List.length (parameterLabels (component p))) = nParams (component p) /\
  shortFunctionName (component p) = "Gaussian-1D"%string.
Proof.
  assert (Hgen : forall cs (p0 q : process T),
             run cs p0 = Some q ->
             nParams (component q) = nParams (component p0) /\
             parameterLabels (component q) = parameterLabels (component p0) /\
             shortFunctionName (component q) = shortFunctionName (component p0)).
  { induction cs as [|c cs IH]; intros p0 q; cbn.
    - intros [= <-]. repeat split.
    - destruct (step c p0) as [p1|] eqn:Hstep; [|discriminate].
      intros Hrun. destruct (IH _ _ Hrun) as (-> & -> & ->).
      exact (step_keeps_declaration _ _ _ Hstep). }
  intros Hrun. destruct (Hgen _ _ _ Hrun) as (Hn & Hl & Hs).
  rewrite Hn, Hl, Hs. repeat split.
Qed.

(** The calls of [GetValue] leave no trace: a run ends as the run of
    its [Setup] calls alone ends, in failure if that one fails and in the
    same process if not. *)
Theorem GetValue_calls_leave_no_trace
    (calls : list (call T)) (p : process T) :
  run calls p = run (filter is_Setup calls) p.
Proof.
  revert p. induction calls as [|c rest IH]; intros p; [reflexivity|].
  destruct c as [params offsetIndex xc|x]; cbn [filter is_Setup run].
  - destruct (step (Call_Setup params offsetIndex xc) p); [apply IH | reflexivity].
  - rewrite step_GetValue. apply IH.
Qed.

End Gaussian1D_runs.

(** X16 after a [Setup], an evaluation and a second [Setup]. *)
Lemma declaration_is_kept_witness :
  exists p,
    @Gaussian1D.run float (binary64 SeriesLibm.series_libm)
      [Gaussian1D.Call_Setup [20%float; 3%float] 0 16%float;
       Gaussian1D.Call_GetValue 19%float;
       Gaussian1D.Call_Setup [7%float; 21%float; 2%float] 1 8%float]
      (@Gaussian1D.construct float (binary64 SeriesLibm.series_libm) None
         zeroed_binary64)
    = Some p /\
    Gaussian1D.nParams (Gaussian1D.component p) = 2%Z /\
    Gaussian1D.parameterLabels (Gaussian1D.component p)
    = ["mu_0"; "sigma"]%string /\
    Z.of_nat (List.length (Gaussian1D.parameterLabels (Gaussian1D.component p)))
    = Gaussian1D.nParams (Gaussian1D.component p) /\
    Gaussian1D.shortFunctionName (Gaussian1D.component p) = "Gaussian-1D"%string.
Proof.
  eexists. split; [reflexivity|].
  apply (@declaration_is_kept float (binary64 SeriesLibm.series_libm) None
           zeroed_binary64
           [Gaussian1D.Call_Setup [20%float; 3%float] 0 16%float;
            Gaussian1D.Call_GetValue 19%float;
            Gaussian1D.Call_Setup [7%float; 21%float; 2%float] 1 8%float]).
  reflexivity.
Defined.
